(** * ADCSensor: the sensor polling and threshold-alerting engine

    A shallow embedding of [ADCSensor.cpp]: the read-completion handler
    [handle_response], the timer callback, [check_thresholds],
    [assert_thresholds], [update_value], the constructor and the destructor,
    together with the IEEE 754 arithmetic the handler performs on the sample.

    Conventions.
    - [float] is IEEE 754 binary32 and [double] is binary64; both are values of
      [spec_float], kept in the canonical form of their format, and every
      operation rounds to nearest, ties to even (FLT_EVAL_METHOD = 0).
    - Calls on the bus, the device and the timer are recorded as a trace of
      [event]s; results of the operating system ([open]) and of the reactor
      (completion codes, bytes read) are inputs of the functions.
    - [std::stof] and the two predicates of [Thresholds.cpp] are parameters of
      the development; [Strtof.stof] is an executable model of the former used
      to run the handler on concrete lines. *)

From Stdlib Require Import ZArith List String Ascii Bool Lia SpecFloat.
Import ListNotations.
Local Open Scope Z_scope.

(** ** IEEE 754 arithmetic *)

Module IEEE.

Definition float : Type := spec_float.
Definition double : Type := spec_float.

Definition prec32 : Z := 24.
Definition emax32 : Z := 128.
Definition prec64 : Z := 53.
Definition emax64 : Z := 1024.

(** Rounding of an arbitrary finite binary number into a format. *)
Definition round (prec emax : Z) (x : spec_float) : spec_float :=
  match x with
  | S754_finite s m e => binary_round prec emax s m e
  | _ => x
  end.

(** Conversions [float -> double] (exact) and [double -> float]. *)
Definition double_of_float (x : float) : double := round prec64 emax64 x.
Definition float_of_double (x : double) : float := round prec32 emax32 x.

(** Integer conversions. *)
Definition float_of_Z (n : Z) : float := binary_normalize prec32 emax32 n 0 false.
Definition double_of_Z (n : Z) : double := binary_normalize prec64 emax64 n 0 false.

Definition fdiv (x y : float) : float := SFdiv prec32 emax32 x y.
Definition ddiv (x y : double) : double := SFdiv prec64 emax64 x y.

(** The comparison operators [!=], [>] and [<] of C++ on doubles. *)
Definition ne (x y : double) : bool := negb (SFeqb x y).
Definition gt (x y : double) : bool := SFltb y x.
Definition lt (x y : double) : bool := SFltb x y.

Definition quiet_NaN : double := S754_nan.

Definition is_nan (x : spec_float) : bool :=
  match x with S754_nan => true | _ => false end.

Definition is_finite (x : spec_float) : bool :=
  match x with S754_zero _ | S754_finite _ _ _ => true | _ => false end.

(** [x] denotes exactly the rational [n / d] (with [0 < d]). *)
Definition exactly (x : spec_float) (n d : Z) : bool :=
  match x with
  | S754_zero _ => n =? 0
  | S754_finite s m e =>
      let v := if s then Z.neg m else Z.pos m in
      (v * 2 ^ Z.max 0 e * d =? n * 2 ^ Z.max 0 (- e))
  | _ => false
  end.

(** The finite values as dyadic rationals [m * 2^e]. *)
Definition dyadic (x : spec_float) : option (Z * Z) :=
  match x with
  | S754_zero _ => Some (0, 0)
  | S754_finite s m e => Some (if s then Z.neg m else Z.pos m, e)
  | _ => None
  end.

(** [v * k * y = x] holds exactly, on finite values. *)
Definition exact_product (v : spec_float) (k : Z) (y x : spec_float) : bool :=
  match dyadic v, dyadic y, dyadic x with
  | Some (mv, ev), Some (my, ey), Some (mx, ex) =>
      let e := Z.min (ev + ey) ex in
      (mv * k * my * 2 ^ (ev + ey - e) =? mx * 2 ^ (ex - e))
  | _, _, _ => false
  end.

End IEEE.

(** ** An executable model of [std::stof] *)

Inductive stof_result : Type :=
| stof_value (x : IEEE.float)
| stof_invalid_argument
| stof_out_of_range.

Module Strtof.

Definition code (c : ascii) : Z := Z.of_N (N_of_ascii c).

(** [isspace] in the C locale. *)
Definition isspace (c : ascii) : bool :=
  (code c =? 32) || ((9 <=? code c) && (code c <=? 13)).

Definition digit (c : ascii) : option Z :=
  if (48 <=? code c) && (code c <=? 57) then Some (code c - 48) else None.

Definition xdigit (c : ascii) : option Z :=
  if (48 <=? code c) && (code c <=? 57) then Some (code c - 48)
  else if (97 <=? code c) && (code c <=? 102) then Some (code c - 87)
  else if (65 <=? code c) && (code c <=? 70) then Some (code c - 55)
  else None.

(** Case-insensitive test of one letter, [l] given in lower case. *)
Definition letter (l : Z) (c : ascii) : bool :=
  (code c =? l) || (code c =? l - 32).

Fixpoint skip_space (s : string) : string :=
  match s with
  | String c r => if isspace c then skip_space r else s
  | EmptyString => s
  end.

(** Reads the longest run of digits in base [base]; returns the accumulated
    value, the number of digits read and the rest of the text. *)
Fixpoint digits (dig : ascii -> option Z) (base : Z) (s : string) (acc n : Z)
  : Z * Z * string :=
  match s with
  | String c r =>
      match dig c with
      | Some d => digits dig base r (acc * base + d) (n + 1)
      | None => (acc, n, s)
      end
  | EmptyString => (acc, n, s)
  end.

(** A digit sequence optionally containing a radix character: the value of
    all its digits, how many there are, how many follow the point. *)
Definition mantissa (dig : ascii -> option Z) (base : Z) (s : string)
  : Z * Z * Z * string :=
  let '(m1, n1, r1) := digits dig base s 0 0 in
  match r1 with
  | String "." r =>
      let '(m2, n2, r2) := digits dig base r m1 0 in
      (m2, n1 + n2, n2, if n1 + n2 =? 0 then s else r2)
  | _ => (m1, n1, 0, r1)
  end.

(** The optional exponent part introduced by the letter [l]; it is consumed
    only when at least one digit follows the optional sign. *)
Definition exponent (l : Z) (s : string) : Z :=
  match s with
  | String c r =>
      if letter l c then
        let '(neg, r') :=
          match r with
          | String "-" t => (true, t)
          | String "+" t => (false, t)
          | _ => (false, r)
          end in
        let '(x, n, _) := digits digit 10 r' 0 0 in
        if n =? 0 then 0 else if neg then - x else x
      else 0
  | EmptyString => 0
  end.

(** Range errors ([errno = ERANGE]): overflow to infinity, and underflow as
    glibc reports it where tininess is detected after rounding (x86-64,
    AArch64): the result is not exact and the value, rounded to the precision
    of the format with no bound on the exponent, is below the least normal
    number [2^(2 - emax)].  [unbounded] is that rounding, made in a format of
    the same precision whose exponent range is [wide]. *)
Definition wide : Z := 65536.

Definition tiny (unbounded : spec_float) : bool :=
  match unbounded with
  | S754_zero _ => true
  | S754_finite _ m e => e + Z.pos (digits2_pos m) <=? 2 - IEEE.emax32
  | _ => false
  end.

Definition checked (x : IEEE.float) (unbounded : spec_float) (n d : Z) : stof_result :=
  match x with
  | S754_infinity _ => stof_out_of_range
  | _ => if tiny unbounded && negb (IEEE.exactly x n d) then stof_out_of_range
         else stof_value x
  end.

(** Correctly rounded value of [(-1)^s * m * base^e], [m > 0]. *)
Definition scaled (s : bool) (m : positive) (base e : Z) : stof_result :=
  let sg (z : Z) := if s then - z else z in
  if 0 <=? e then
    let n := Z.pos m * base ^ e in
    checked (binary_round IEEE.prec32 IEEE.emax32 s (Z.to_pos n) 0)
            (binary_round IEEE.prec32 wide s (Z.to_pos n) 0) (sg n) 1
  else
    let d := base ^ (- e) in
    let quotient (emax : Z) :=
      SFdiv IEEE.prec32 emax (S754_finite s m 0) (S754_finite false (Z.to_pos d) 0) in
    checked (quotient IEEE.emax32) (quotient wide) (sg (Z.pos m)) d.

Definition number (s : bool) (m : Z) (base e : Z) : stof_result :=
  match m with
  | Z.pos p => scaled s p base e
  | _ => stof_value (S754_zero s)
  end.

Definition hexadecimal (s : bool) (t : string) : option stof_result :=
  match t with
  | String "0" (String x r) =>
      if letter 120 x then
        let '(m, n, f, r') := mantissa xdigit 16 r in
        if n =? 0 then None
        else Some (number s m 2 (exponent 112 r' - 4 * f))
      else None
  | _ => None
  end.

Definition decimal (s : bool) (t : string) : stof_result :=
  let '(m, n, f, r) := mantissa digit 10 t in
  if n =? 0 then stof_invalid_argument
  else number s m 10 (exponent 101 r - f).

Definition special (s : bool) (t : string) : option stof_result :=
  match t with
  | String a (String b (String c _)) =>
      if letter 105 a && letter 110 b && letter 102 c
      then Some (stof_value (S754_infinity s))
      else if letter 110 a && letter 97 b && letter 110 c
      then Some (stof_value S754_nan)
      else None
  | _ => None
  end.

(** [std::stof(str)]: [strtof] on the text, [invalid_argument] when no
    conversion can be performed, [out_of_range] when [strtof] reports
    [ERANGE].  Characters after the number are ignored. *)
Definition stof (str : string) : stof_result :=
  let t := skip_space str in
  let '(s, t) :=
    match t with
    | String "-" r => (true, r)
    | String "+" r => (false, r)
    | _ => (false, t)
    end in
  match special s t with
  | Some r => r
  | None =>
      match hexadecimal s t with
      | Some r => r
      | None => decimal s t
      end
  end.

End Strtof.

(** ** Thresholds *)

Module thresholds.

(** Modelled from the spec: [Thresholds.hpp] is not among the sources; the
    spec gives a threshold a level in {Warning, Critical}, a direction in
    {High, Low} and a trip value, and the code names them
    [thresholds::Level::WARNING], [thresholds::Direction::HIGH], ... *)
Inductive Level : Type := WARNING | CRITICAL.
Inductive Direction : Type := HIGH | LOW.

Record Threshold : Type := mkThreshold {
  level : Level;
  direction : Direction;
  value : IEEE.double
}.

Definition Level_eqb (a b : Level) : bool :=
  match a, b with
  | WARNING, WARNING | CRITICAL, CRITICAL => true
  | _, _ => false
  end.

Definition Direction_eqb (a b : Direction) : bool :=
  match a, b with
  | HIGH, HIGH | LOW, LOW => true
  | _, _ => false
  end.

End thresholds.

Import thresholds(Level, WARNING, CRITICAL, Direction, HIGH, LOW, Threshold,
                  mkThreshold, Level_eqb, Direction_eqb).

(** ** Error codes *)

Inductive error_category : Type := system_category | misc_category.

Record error_code : Type := mkError {
  ec_value : Z;
  ec_category : error_category
}.

Definition EBADF : Z := 9.
Definition ECANCELED : Z := 125.

Definition no_error : error_code := mkError 0 system_category.
(** [boost::system::errc::bad_file_descriptor] *)
Definition bad_file_descriptor : error_code := mkError EBADF system_category.
(** [boost::asio::error::operation_aborted] *)
Definition operation_aborted : error_code := mkError ECANCELED system_category.
(** [boost::asio::error::eof] *)
Definition eof : error_code := mkError 2 misc_category.

Definition error_category_eqb (a b : error_category) : bool :=
  match a, b with
  | system_category, system_category | misc_category, misc_category => true
  | _, _ => false
  end.

(** [a == b] on error codes. *)
Definition error_eqb (a b : error_code) : bool :=
  (ec_value a =? ec_value b) && error_category_eqb (ec_category a) (ec_category b).

(** [!err] *)
Definition error_not (err : error_code) : bool := ec_value err =? 0.

(** ** The trace of a sensor *)

Inductive dbus_interface : Type :=
| Sensor_Value          (* xyz.openbmc_project.Sensor.Value *)
| Threshold_Warning     (* xyz.openbmc_project.Sensor.Threshold.Warning *)
| Threshold_Critical.   (* xyz.openbmc_project.Sensor.Threshold.Critical *)

Inductive variant : Type :=
| Double (d : IEEE.double)
| Boolean (b : bool).

Inductive message : Type :=
| Failure_to_read_sensor (name path : string) (ec : error_code)
| Unknown_threshold (l : Level) (d : Direction)
| Unknown_threshold_level (l : Level)
| trying_to_set_uninitialized_interface
| error_initializing (i : dbus_interface).

Inductive event : Type :=
| add_interface (i : dbus_interface) (object_path : string)
| remove_interface (i : option dbus_interface)
| register_property (i : dbus_interface) (property : string) (v : variant)
| initialize (i : dbus_interface)
| set_property (i : dbus_interface) (property : string) (v : variant)
| cerr (m : message)
| cout (m : message)
| open (path : string)
| close
| assign (fd : Z)
| expires_from_now (milliseconds : Z)
| async_wait
| cancel
| async_read_until.

(** ** The sensor *)

(** The members of [ADCSensor] as the constructor initialises them
    ([ADCSensor.hpp] is not among the sources; [err_count] is an [int] as in
    [TachSensor.hpp]).  [input_dev] is the descriptor the stream owns;
    [pending_read] and [pending_wait] say whether a completion handler of
    [input_dev], respectively of [wait_timer], is still to be invoked. *)
Record ADCSensor : Type := mkADCSensor {
  path : string;
  configuration : string;
  name : string;
  thresholds : list Threshold;
  scale_factor : IEEE.double;
  threshold_interface_warning : option dbus_interface;
  threshold_interface_critical : option dbus_interface;
  input_dev : option Z;
  pending_read : bool;
  pending_wait : bool;
  read_buf : string;
  value : IEEE.double;
  err_count : Z;
  max_value : IEEE.double;
  min_value : IEEE.double
}.

Definition set_input_dev (d : option Z) (s : ADCSensor) : ADCSensor :=
  mkADCSensor (path s) (configuration s) (name s) (thresholds s) (scale_factor s)
    (threshold_interface_warning s) (threshold_interface_critical s)
    d (pending_read s) (pending_wait s) (read_buf s) (value s) (err_count s)
    (max_value s) (min_value s).

Definition set_pending_read (b : bool) (s : ADCSensor) : ADCSensor :=
  mkADCSensor (path s) (configuration s) (name s) (thresholds s) (scale_factor s)
    (threshold_interface_warning s) (threshold_interface_critical s)
    (input_dev s) b (pending_wait s) (read_buf s) (value s) (err_count s)
    (max_value s) (min_value s).

Definition set_pending_wait (b : bool) (s : ADCSensor) : ADCSensor :=
  mkADCSensor (path s) (configuration s) (name s) (thresholds s) (scale_factor s)
    (threshold_interface_warning s) (threshold_interface_critical s)
    (input_dev s) (pending_read s) b (read_buf s) (value s) (err_count s)
    (max_value s) (min_value s).

Definition set_read_buf (b : string) (s : ADCSensor) : ADCSensor :=
  mkADCSensor (path s) (configuration s) (name s) (thresholds s) (scale_factor s)
    (threshold_interface_warning s) (threshold_interface_critical s)
    (input_dev s) (pending_read s) (pending_wait s) b (value s) (err_count s)
    (max_value s) (min_value s).

Definition set_value (v : IEEE.double) (s : ADCSensor) : ADCSensor :=
  mkADCSensor (path s) (configuration s) (name s) (thresholds s) (scale_factor s)
    (threshold_interface_warning s) (threshold_interface_critical s)
    (input_dev s) (pending_read s) (pending_wait s) (read_buf s) v (err_count s)
    (max_value s) (min_value s).

Definition set_err_count (n : Z) (s : ADCSensor) : ADCSensor :=
  mkADCSensor (path s) (configuration s) (name s) (thresholds s) (scale_factor s)
    (threshold_interface_warning s) (threshold_interface_critical s)
    (input_dev s) (pending_read s) (pending_wait s) (read_buf s) (value s) n
    (max_value s) (min_value s).

(** ** Computations on a sensor

    A member function is a function from the sensor to how it ended, the
    sensor it left and the calls it made.  It ends normally, by an exception
    that nothing caught, or in undefined behaviour. *)

Inductive exception : Type := out_of_range.

Inductive result (A : Type) : Type :=
| Normal (a : A)
| Throws (e : exception)
| Undefined.
Arguments Normal {A} a.
Arguments Throws {A} e.
Arguments Undefined {A}.

Record run (A : Type) : Type := mkRun {
  res : result A;
  after : ADCSensor;
  trace : list event
}.
Arguments mkRun {A} res after trace.
Arguments res {A} r.
Arguments after {A} r.
Arguments trace {A} r.

Definition M (A : Type) : Type := ADCSensor -> run A.

Definition ret {A} (a : A) : M A := fun s => mkRun (Normal a) s [].

Definition bind {A B} (m : M A) (k : A -> M B) : M B :=
  fun s =>
    let r := m s in
    match res r with
    | Normal a =>
        let r' := k a (after r) in
        mkRun (res r') (after r') (trace r ++ trace r')
    | Throws e => mkRun (Throws e) (after r) (trace r)
    | Undefined => mkRun Undefined (after r) (trace r)
    end.

Definition gets {A} (f : ADCSensor -> A) : M A := fun s => mkRun (Normal (f s)) s [].
Definition modify (f : ADCSensor -> ADCSensor) : M unit := fun s => mkRun (Normal tt) (f s) [].
Definition emit (e : event) : M unit := fun s => mkRun (Normal tt) s [e].
Definition throw {A} (e : exception) : M A := fun s => mkRun (Throws e) s [].
Definition undefined {A} : M A := fun s => mkRun Undefined s [].

Declare Scope sensor_scope.
Delimit Scope sensor_scope with sensor.
Notation "x <- m ;; k" := (bind m (fun x => k))
  (at level 100, m at next level, right associativity) : sensor_scope.
Notation "m ;; k" := (bind m (fun _ => k))
  (at level 100, right associativity) : sensor_scope.
Local Open Scope sensor_scope.

(** ** Constants *)

Definition SENSOR_POLL_MS : Z := 500.
Definition WARN_AFTER_ERROR_COUNT : Z := 10.
Definition SENSOR_SCALE_FACTOR : Z := 1000.

Definition INT_MAX : Z := 2147483647.
(** Conversion of an [int] to [size_t] (64 bits). *)
Definition size_t_of_int (n : Z) : Z := n mod 2 ^ 64.

Definition nl : ascii := "010"%char.

(** [std::getline(response_stream, response)] on the stream buffer: the text
    up to the first newline, which is extracted and dropped. *)
Fixpoint getline (buf : string) : string * string :=
  match buf with
  | EmptyString => (EmptyString, EmptyString)
  | String c rest =>
      if Ascii.eqb c nl then (EmptyString, rest)
      else let (l, r) := getline rest in (String c l, r)
  end.

(** [boost::replace_all_copy(sensor_name, " ", "_")] *)
Fixpoint replace_spaces (s : string) : string :=
  match s with
  | EmptyString => EmptyString
  | String c r => String (if Ascii.eqb c " " then "_"%char else c) (replace_spaces r)
  end.

(** ** Member functions that do not parse *)

Definition assert_thresholds (level : Level) (direction : Direction) (assert : bool)
  : M unit :=
  warning <- gets threshold_interface_warning ;;
  critical <- gets threshold_interface_critical ;;
  let set (property : string) (interface : option dbus_interface) : M unit :=
    match interface with
    | None => emit (cout trying_to_set_uninitialized_interface)
    | Some i => emit (set_property i property (Boolean assert))
    end in
  if Level_eqb level WARNING && Direction_eqb direction HIGH then
    set "WarningAlarmHigh"%string warning
  else if Level_eqb level WARNING && Direction_eqb direction LOW then
    set "WarningAlarmLow"%string warning
  else if Level_eqb level CRITICAL && Direction_eqb direction HIGH then
    set "CriticalAlarmHigh"%string critical
  else if Level_eqb level CRITICAL && Direction_eqb direction LOW then
    set "CriticalAlarmLow"%string critical
  else
    emit (cerr (Unknown_threshold level direction)).

(** The body of the loop of [check_thresholds], over the thresholds that
    remain. *)
Fixpoint check_each (remaining : list Threshold) : M unit :=
  match remaining with
  | [] => ret tt
  | threshold :: remaining =>
      v <- gets value ;;
      (if Direction_eqb (thresholds.direction threshold) HIGH then
         if IEEE.gt v (thresholds.value threshold) then
           assert_thresholds (thresholds.level threshold) (thresholds.direction threshold) true
         else
           assert_thresholds (thresholds.level threshold) (thresholds.direction threshold) false
       else
         if IEEE.lt v (thresholds.value threshold) then
           assert_thresholds (thresholds.level threshold) (thresholds.direction threshold) true
         else
           assert_thresholds (thresholds.level threshold) (thresholds.direction threshold) false) ;;
      check_each remaining
  end.

Definition check_thresholds : M unit :=
  ths <- gets thresholds ;;
  match ths with
  | [] => ret tt
  | _ => check_each ths
  end.

Definition update_value (new_value : IEEE.double) : M unit :=
  emit (set_property Sensor_Value "Value" (Double new_value)) ;;
  modify (set_value new_value) ;;
  check_thresholds.

Definition setup_read : M unit :=
  emit async_read_until ;;
  modify (set_pending_read true).

(** [err_count++] on an [int]. *)
Definition increment_err_count : M unit :=
  n <- gets err_count ;;
  if n =? INT_MAX then undefined else modify (set_err_count (n + 1)).

(** The completion handler given to [wait_timer.async_wait]. *)
Definition wait_handler (ec : error_code) : M unit :=
  if error_eqb ec operation_aborted then
    ret tt (* we're being canceled *)
  else
    setup_read.

(** ** The handler, the constructor and the poll loop *)

(** One read of the device as the reactor reports it: the bytes
    [async_read_until] has put into [read_buf], its completion code, and the
    descriptor the handler's call of [open] returns. *)
Record completion : Type := mkCompletion {
  bytes : string;
  ec : error_code;
  reopened : Z
}.

Section Sensor.

(** [std::stof] of the C++ library. *)
Variable stof : string -> stof_result.

(** [thresholds::HasWarningInterface] and [thresholds::HasCriticalInterface]
    of [Thresholds.cpp], which is not among the sources. *)
Variable HasWarningInterface : list Threshold -> bool.
Variable HasCriticalInterface : list Threshold -> bool.

(** [fd] is the result of the call [open(path.c_str(), O_RDONLY)]. *)
Definition handle_response (err : error_code) (fd : Z) : M unit :=
  if error_eqb err bad_file_descriptor then
    ret tt (* we're being destroyed *)
  else
    (if error_not err then
       buf <- gets read_buf ;;
       let (response, rest) := getline buf in
       modify (set_read_buf rest) ;;
       match stof response with
       | stof_value nvalue =>
           scale <- gets scale_factor ;;
           let nvalue :=
             IEEE.float_of_double
               (IEEE.ddiv
                  (IEEE.double_of_float
                     (IEEE.fdiv nvalue (IEEE.float_of_Z SENSOR_SCALE_FACTOR)))
                  scale) in
           v <- gets value ;;
           (if IEEE.ne (IEEE.double_of_float nvalue) v then
              update_value (IEEE.double_of_float nvalue)
            else ret tt) ;;
           modify (set_err_count 0)
       | stof_invalid_argument => increment_err_count
       | stof_out_of_range => throw out_of_range
       end
     else
       n <- gets name ;;
       p <- gets path ;;
       emit (cerr (Failure_to_read_sensor n p err)) ;;
       increment_err_count) ;;
    (* only send value update once *)
    n <- gets err_count ;;
    (if size_t_of_int n =? WARN_AFTER_ERROR_COUNT then
       update_value (IEEE.double_of_Z 0)
     else ret tt) ;;
    modify (set_input_dev None) ;;
    emit close ;;
    p <- gets path ;;
    emit (open p) ;;
    if fd <=? 0 then
      ret tt (* we're no longer valid *)
    else
      modify (set_input_dev (Some fd)) ;;
      emit (assign fd) ;;
      emit (expires_from_now SENSOR_POLL_MS) ;;
      emit async_wait ;;
      modify (set_pending_wait true).

(** The loop of [set_initial_properties]. *)
Fixpoint register_thresholds (remaining : list Threshold) : M unit :=
  match remaining with
  | [] => ret tt
  | threshold :: remaining =>
      warning <- gets threshold_interface_warning ;;
      critical <- gets threshold_interface_critical ;;
      let register (iface : option dbus_interface) (level alarm : string) : M unit :=
        match iface with
        | None => emit (cout trying_to_set_uninitialized_interface)
        | Some i =>
            emit (register_property i level (Double (thresholds.value threshold))) ;;
            emit (register_property i alarm (Boolean false))
        end in
      (if Level_eqb (thresholds.level threshold) CRITICAL then
         if Direction_eqb (thresholds.direction threshold) HIGH
         then register critical "CriticalHigh"%string "CriticalAlarmHigh"%string
         else register critical "CriticalLow"%string "CriticalAlarmLow"%string
       else if Level_eqb (thresholds.level threshold) WARNING then
         if Direction_eqb (thresholds.direction threshold) HIGH
         then register warning "WarningHigh"%string "WarningAlarmHigh"%string
         else register warning "WarningLow"%string "WarningAlarmLow"%string
       else
         emit (cerr (Unknown_threshold_level (thresholds.level threshold)))) ;;
      register_thresholds remaining
  end.

(** [initialized i] is what [initialize()] returns on interface [i]. *)
Definition set_initial_properties (initialized : dbus_interface -> bool) : M unit :=
  hi <- gets max_value ;;
  lo <- gets min_value ;;
  v <- gets value ;;
  emit (register_property Sensor_Value "MaxValue" (Double hi)) ;;
  emit (register_property Sensor_Value "MinValue" (Double lo)) ;;
  emit (register_property Sensor_Value "Value" (Double v)) ;;
  ths <- gets thresholds ;;
  register_thresholds ths ;;
  let init (i : dbus_interface) : M unit :=
    emit (initialize i) ;;
    if initialized i then ret tt else emit (cerr (error_initializing i)) in
  init Sensor_Value ;;
  warning <- gets threshold_interface_warning ;;
  match warning with Some i => init i | None => ret tt end ;;
  critical <- gets threshold_interface_critical ;;
  match critical with Some i => init i | None => ret tt end.

Definition object_path (name : string) : string :=
  ("/xyz/openbmc_project/sensors/voltage/" ++ name)%string.

(** The constructor; [fd] is the descriptor its call of [open] returns, for
    an open that succeeded ([0 <= fd]).  When [open] fails the initialiser of
    [input_dev] is given -1: its constructor throws and the body below does
    not run; no sensor exists then. *)
Definition constructor (path sensor_name : string) (_thresholds : list Threshold)
    (scale_factor : IEEE.double) (sensorConfiguration : string)
    (fd : Z) (initialized : dbus_interface -> bool) : run unit :=
  let name := replace_spaces sensor_name in
  let warning := HasWarningInterface _thresholds in
  let critical := HasCriticalInterface _thresholds in
  let members :=
    mkADCSensor path sensorConfiguration name _thresholds scale_factor
      (if warning then Some Threshold_Warning else None)
      (if critical then Some Threshold_Critical else None)
      (Some fd) false false EmptyString
      IEEE.quiet_NaN 0
      (IEEE.double_of_Z 20) (IEEE.double_of_Z 0) in
  (emit (add_interface Sensor_Value (object_path name)) ;;
   emit (open path) ;;
   (if warning then emit (add_interface Threshold_Warning (object_path name))
    else ret tt) ;;
   (if critical then emit (add_interface Threshold_Critical (object_path name))
    else ret tt) ;;
   set_initial_properties initialized ;;
   setup_read) members.

Definition destructor : M unit :=
  (* close the input dev to cancel async operations *)
  modify (set_input_dev None) ;;
  emit close ;;
  emit cancel ;;
  warning <- gets threshold_interface_warning ;;
  emit (remove_interface warning) ;;
  critical <- gets threshold_interface_critical ;;
  emit (remove_interface critical) ;;
  emit (remove_interface (Some Sensor_Value)).

(** *** The reactor, for one sensor *)

(** The outstanding read completes: its bytes are in [read_buf] and its
    handler runs. *)
Definition read_completes (c : completion) : M unit :=
  modify (set_pending_read false) ;;
  buf <- gets read_buf ;;
  modify (set_read_buf (buf ++ bytes c)%string) ;;
  handle_response (ec c) (reopened c).

(** The outstanding wait completes with code [e]. *)
Definition wait_completes (e : error_code) : M unit :=
  modify (set_pending_wait false) ;;
  wait_handler e.

(** One cycle of the poll loop: the read completes and, when the handler
    armed the timer, the timer expires.  A sensor with no outstanding read
    is never called again. *)
Definition cycle (c : completion) : M unit :=
  reading <- gets pending_read ;;
  if reading then
    read_completes c ;;
    waiting <- gets pending_wait ;;
    if waiting then wait_completes no_error else ret tt
  else ret tt.

Fixpoint poll (cs : list completion) : M unit :=
  match cs with
  | [] => ret tt
  | c :: cs => cycle c ;; poll cs
  end.

(** The completion of a read that was outstanding when its descriptor was
    closed.  boost::asio documents [close]: asynchronous operations are
    cancelled immediately and complete with
    [boost::asio::error::operation_aborted]; so does [cancel] for the waits of
    a timer.  No byte is delivered; [fd] is what the handler's call of [open]
    returns. *)
Definition cancelled_read (fd : Z) : completion :=
  mkCompletion EmptyString operation_aborted fd.

(** The destruction of a sensor with what it leaves to the reactor: the
    destructor runs, then the handlers of the operations it cancelled are
    invoked, the timer's and the descriptor's.  The members are read as the
    destructor left them. *)
Definition teardown (fd : Z) : M unit :=
  destructor ;;
  waiting <- gets pending_wait ;;
  (if waiting then wait_completes operation_aborted else ret tt) ;;
  reading <- gets pending_read ;;
  if reading then read_completes (cancelled_read fd) else ret tt.

End Sensor.

(** Modelled from the spec: [Thresholds.cpp] is not among the sources; a
    channel exposes the alarm interface of a level when one of its thresholds
    has that level. *)
Definition has_level (l : Level) (ths : list Threshold) : bool :=
  existsb (fun t => Level_eqb (thresholds.level t) l) ths.

(** ** Observations and specifications *)

(** The transform of the value pipeline as the handler computes it: the
    sample is a [float], the division by the unit scale is a [float] division,
    the division by the scale factor is a [double] division, and the quotient
    is stored back into the [float]. *)
Definition scaled_sample (x : IEEE.float) (scale : IEEE.double) : IEEE.float :=
  IEEE.float_of_double
    (IEEE.ddiv
       (IEEE.double_of_float (IEEE.fdiv x (IEEE.float_of_Z SENSOR_SCALE_FACTOR)))
       scale).

(** The transform as the words of the spec give it, with nothing stored in a
    [float]: [(x / unit_scale_constant) / scale_factor] on doubles. *)
Definition unit_scale_constant : Z := 1000.
Definition spec_transform (x : IEEE.float) (scale : IEEE.double) : IEEE.double :=
  IEEE.ddiv (IEEE.ddiv (IEEE.double_of_float x) (IEEE.double_of_Z unit_scale_constant))
            scale.

(** The same words with every operation on floats. *)
Definition float_transform (x : IEEE.float) (scale : IEEE.double) : IEEE.float :=
  IEEE.fdiv (IEEE.fdiv x (IEEE.float_of_Z unit_scale_constant))
            (IEEE.float_of_double scale).

(** The value of the C++ expression [(nvalue / SENSOR_SCALE_FACTOR) /
    scale_factor] before it is stored. *)
Definition unrounded_quotient (x : IEEE.float) (scale : IEEE.double) : IEEE.double :=
  IEEE.ddiv
    (IEEE.double_of_float (IEEE.fdiv x (IEEE.float_of_Z SENSOR_SCALE_FACTOR)))
    scale.

(** The threshold engine in the words of the spec (4.4). *)
Definition tripped (v : IEEE.double) (t : Threshold) : bool :=
  match thresholds.direction t with
  | HIGH => IEEE.gt v (thresholds.value t)
  | LOW => IEEE.lt v (thresholds.value t)
  end.

Definition alarm_identity (l : Level) (d : Direction) : string :=
  match l, d with
  | WARNING, HIGH => "WarningAlarmHigh"
  | WARNING, LOW => "WarningAlarmLow"
  | CRITICAL, HIGH => "CriticalAlarmHigh"
  | CRITICAL, LOW => "CriticalAlarmLow"
  end.

Definition alarm_interface (l : Level) : dbus_interface :=
  match l with
  | WARNING => Threshold_Warning
  | CRITICAL => Threshold_Critical
  end.

Definition interface_of (s : ADCSensor) (l : Level) : option dbus_interface :=
  match l with
  | WARNING => threshold_interface_warning s
  | CRITICAL => threshold_interface_critical s
  end.

(** What evaluating one threshold against [v] sends. *)
Definition alarm_event (s : ADCSensor) (v : IEEE.double) (t : Threshold) : event :=
  match interface_of s (thresholds.level t) with
  | Some i =>
      set_property i (alarm_identity (thresholds.level t) (thresholds.direction t))
        (Boolean (tripped v t))
  | None => cout trying_to_set_uninitialized_interface
  end.

Definition evaluation (s : ADCSensor) (v : IEEE.double) : list event :=
  map (alarm_event s v) (thresholds s).

(** A value update: the publish, then the evaluation against that value. *)
Definition publication (s : ADCSensor) (v : IEEE.double) : list event :=
  set_property Sensor_Value "Value" (Double v) :: evaluation s v.

(** Every threshold of the sensor has the interface of its level. *)
Definition exposes_alarms (s : ADCSensor) : Prop :=
  forall t, In t (thresholds s) ->
    interface_of s (thresholds.level t) = Some (alarm_interface (thresholds.level t)).

(** The evaluation reads the thresholds and the two interfaces only. *)
Definition same_wiring (s s' : ADCSensor) : Prop :=
  thresholds s' = thresholds s
  /\ threshold_interface_warning s' = threshold_interface_warning s
  /\ threshold_interface_critical s' = threshold_interface_critical s.

(** A computation that ends normally and leaves the sensor as it found it. *)
Definition keeps_sensor {A} (m : M A) : Prop :=
  forall s, after (m s) = s /\ exists a, res (m s) = Normal a.

(** The values a trace hands to the publisher, in order. *)
Fixpoint published (tr : list event) : list IEEE.double :=
  match tr with
  | [] => []
  | set_property Sensor_Value _ (Double v) :: tr => v :: published tr
  | _ :: tr => published tr
  end.

(** The part of a trace that the publisher and the threshold engine see. *)
Definition on_bus (e : event) : bool :=
  match e with
  | set_property _ _ _ => true
  | cout trying_to_set_uninitialized_interface => true
  | _ => false
  end.

Definition bus (tr : list event) : list event := filter on_bus tr.

(** The end of a cycle: what the handler does with the device and the timer
    when [open] returns [fd]. *)
Definition reschedule (fd : Z) (s : ADCSensor) : list event :=
  close :: open (path s) ::
  (if fd <=? 0 then [] else [assign fd; expires_from_now SENSOR_POLL_MS; async_wait]).

Definition rescheduled (fd : Z) (s : ADCSensor) : ADCSensor :=
  if fd <=? 0 then set_input_dev None s
  else set_pending_wait true (set_input_dev (Some fd) s).

(** The text [std::getline] hands to [std::stof] in a handler that starts
    with the sensor [s]. *)
Definition response (s : ADCSensor) : string := fst (getline (read_buf s)).

(** A run with calls made before it. *)
Definition prefix {A} (t : list event) (r : run A) : run A :=
  mkRun (res r) (after r) (t ++ trace r).

(** A cycle of the poll loop, from the run of its handler: when the handler
    left the timer armed, the timer expires and the next read is started. *)
Definition cycle_of (h : run unit) : run unit :=
  match res h with
  | Normal _ =>
      if pending_wait (after h) then
        mkRun (Normal tt) (set_pending_read true (set_pending_wait false (after h)))
          (trace h ++ [async_read_until])
      else mkRun (Normal tt) (after h) (trace h)
  | Throws e => mkRun (Throws e) (after h) (trace h)
  | Undefined => mkRun Undefined (after h) (trace h)
  end.

(** The forced publish of [handle_response]: its test, its calls and the
    sensor it leaves. *)
Definition zero : IEEE.double := IEEE.double_of_Z 0.

Definition warns (s : ADCSensor) : bool :=
  size_t_of_int (err_count s) =? WARN_AFTER_ERROR_COUNT.

Definition forced (s : ADCSensor) : list event :=
  if warns s then publication s zero else [].

Definition warned (s : ADCSensor) : ADCSensor :=
  if warns s then set_value zero s else s.

(** The sensor when one more error is counted. *)
Definition counted (s : ADCSensor) : ADCSensor :=
  set_err_count (err_count s + 1) s.

(** The sensor once the handler has taken its line out of the buffer. *)
Definition consumed (s : ADCSensor) : ADCSensor :=
  set_read_buf (snd (getline (read_buf s))) s.

(** The value the handler compares and hands over for a sample [x]. *)
Definition sample_value (x : IEEE.float) (s : ADCSensor) : IEEE.double :=
  IEEE.double_of_float (scaled_sample x (scale_factor s)).

Section Cycles.

Variable stof : string -> stof_result.

(** How a completed read ends for the handler. *)
Inductive verdict : Type :=
| Cancelled                  (* the descriptor was closed: nothing is done *)
| Sample (x : IEEE.float)    (* a line that parses *)
| ReadFailure                (* any other completion code *)
| ParseFailure               (* [std::invalid_argument] *)
| RangeFailure.              (* [std::out_of_range] *)

Definition verdict_of (err : error_code) (s : ADCSensor) : verdict :=
  if error_eqb err bad_file_descriptor then Cancelled
  else if error_not err then
    match stof (response s) with
    | stof_value x => Sample x
    | stof_invalid_argument => ParseFailure
    | stof_out_of_range => RangeFailure
    end
  else ReadFailure.

Definition failed (v : verdict) : bool :=
  match v with ReadFailure | ParseFailure => true | _ => false end.

(** The sensor as the handler of completion [c] finds it. *)
Definition delivered (c : completion) (s : ADCSensor) : ADCSensor :=
  set_read_buf (read_buf s ++ bytes c)%string (set_pending_read false s).

(** A streak: every cycle of [cs], run in turn from [s], is a failed read
    or a failed parse, and every reopen gives a descriptor. *)
Fixpoint streak (cs : list completion) (s : ADCSensor) : bool :=
  match cs with
  | [] => true
  | c :: cs =>
      failed (verdict_of (ec c) (delivered c s)) && (0 <? reopened c)
      && streak cs (after (cycle stof c s))
  end.

End Cycles.

(** ** Sample sensors *)

Definition newline (s : string) : string := (s ++ String nl EmptyString)%string.

(** 4.5 as a double. *)
Definition four_and_a_half : IEEE.double :=
  IEEE.ddiv (IEEE.double_of_Z 9) (IEEE.double_of_Z 2).

(** The double nearest to 0.1. *)
Definition one_tenth : IEEE.double :=
  IEEE.ddiv (IEEE.double_of_Z 1) (IEEE.double_of_Z 10).

(** A channel with one Critical-High threshold at 4.5, the given scale
    factor and the descriptor [fd] of its device, as the constructor leaves
    it. *)
Definition channel_on (fd : Z) (scale : IEEE.double) : ADCSensor :=
  after (constructor (has_level WARNING) (has_level CRITICAL)
           "/sys/bus/iio/devices/iio:device0/in_voltage0_raw" "ADC 0"
           [mkThreshold CRITICAL HIGH four_and_a_half]
           scale "adc0" fd (fun _ => true)).

Definition channel_with (scale : IEEE.double) : ADCSensor := channel_on 5 scale.

Definition channel (scale : Z) : ADCSensor := channel_with (IEEE.double_of_Z scale).

(** A sensor when its read has put the text [text] in the buffer. *)
Definition reading (text : string) (s : ADCSensor) : ADCSensor :=
  set_read_buf text (set_pending_read false s).

Definition channel_reading (scale : Z) (text : string) : ADCSensor :=
  reading text (channel scale).

Definition failures (n : nat) : list completion :=
  repeat (mkCompletion EmptyString eof 6) n.

(** ** The setter of a trip value *)

Definition set_thresholds (ths : list Threshold) (s : ADCSensor) : ADCSensor :=
  mkADCSensor (path s) (configuration s) (name s) ths (scale_factor s)
    (threshold_interface_warning s) (threshold_interface_critical s)
    (input_dev s) (pending_read s) (pending_wait s) (read_buf s) (value s)
    (err_count s) (max_value s) (min_value s).

(** [threshold.value = request] on the element of index [i]. *)
Fixpoint write_trip (i : nat) (request : IEEE.double) (ths : list Threshold)
  : list Threshold :=
  match ths, i with
  | [], _ => []
  | t :: rest, O =>
      mkThreshold (thresholds.level t) (thresholds.direction t) request :: rest
  | t :: rest, S i => t :: write_trip i request rest
  end.

(** The arguments of a call of [thresholds::persistThreshold]. *)
Record persisted : Type := mkPersisted {
  persisted_configuration : string;
  persisted_type : string;
  persisted_threshold : Threshold
}.

(** What a call of the setter leaves: the value it returns, the value it
    stores in [oldValue], its call of [persistThreshold] and the sensor. *)
Record written : Type := mkWritten {
  returned : Z;
  oldValue : IEEE.double;
  persist : persisted;
  sensor : ADCSensor
}.

(** The lambda that [set_initial_properties] registers with the trip value of
    the threshold of index [i], called with [request].  The loop registers it
    for a threshold whose interface exists, and for no other. *)
Definition threshold_setter (i : nat) (request : IEEE.double) (s : ADCSensor)
  : option written :=
  match nth_error (thresholds s) i with
  | Some threshold =>
      match interface_of s (thresholds.level threshold) with
      | Some _ =>
          let threshold :=
            mkThreshold (thresholds.level threshold) (thresholds.direction threshold)
              request in
          Some (mkWritten 1 request
                  (mkPersisted (configuration s)
                     "xyz.openbmc_project.Configuration.ADC" threshold)
                  (set_thresholds (write_trip i request (thresholds s)) s))
      | None => None
      end
  | None => None
  end.

(** ** More observations *)

(** The name under which [set_initial_properties] registers a trip value. *)
Definition trip_property (l : Level) (d : Direction) : string :=
  match l, d with
  | WARNING, HIGH => "WarningHigh"
  | WARNING, LOW => "WarningLow"
  | CRITICAL, HIGH => "CriticalHigh"
  | CRITICAL, LOW => "CriticalLow"
  end.

(** What the loop of [set_initial_properties] does for one threshold. *)
Definition registration (s : ADCSensor) (t : Threshold) : list event :=
  match interface_of s (thresholds.level t) with
  | Some i =>
      [register_property i (trip_property (thresholds.level t) (thresholds.direction t))
         (Double (thresholds.value t));
       register_property i (alarm_identity (thresholds.level t) (thresholds.direction t))
         (Boolean false)]
  | None => [cout trying_to_set_uninitialized_interface]
  end.

(** The calls of [initialize] at the end of [set_initial_properties]. *)
Definition initialization (initialized : dbus_interface -> bool) (i : dbus_interface)
  : list event :=
  initialize i :: (if initialized i then [] else [cerr (error_initializing i)]).

Definition initializations (initialized : dbus_interface -> bool) (s : ADCSensor)
  : list event :=
  initialization initialized Sensor_Value
  ++ match threshold_interface_warning s with
     | Some i => initialization initialized i
     | None => []
     end
  ++ match threshold_interface_critical s with
     | Some i => initialization initialized i
     | None => []
     end.

(** How many reads, and how many waits, a trace starts. *)
Definition starts_read (e : event) : bool :=
  match e with async_read_until => true | _ => false end.

Definition starts_wait (e : event) : bool :=
  match e with async_wait => true | _ => false end.

Definition reads_started (tr : list event) : nat := List.length (filter starts_read tr).
Definition waits_started (tr : list event) : nat := List.length (filter starts_wait tr).

(** The intervals a trace arms the timer with. *)
Fixpoint intervals (tr : list event) : list Z :=
  match tr with
  | [] => []
  | expires_from_now ms :: tr => ms :: intervals tr
  | _ :: tr => intervals tr
  end.

(** The members a cycle has no business with. *)
Definition same_configuration (s s' : ADCSensor) : Prop :=
  path s' = path s
  /\ configuration s' = configuration s
  /\ name s' = name s
  /\ thresholds s' = thresholds s
  /\ scale_factor s' = scale_factor s
  /\ threshold_interface_warning s' = threshold_interface_warning s
  /\ threshold_interface_critical s' = threshold_interface_critical s
  /\ max_value s' = max_value s
  /\ min_value s' = min_value s.

(** Texts without a newline, and without a space. *)
Fixpoint lacks (c : ascii) (s : string) : bool :=
  match s with
  | EmptyString => true
  | String a r => negb (Ascii.eqb a c) && lacks c r
  end.

(** The alarm a [set_property] on a threshold interface carries. *)
Definition asserts (e : event) : bool :=
  match e with
  | set_property _ _ (Boolean true) => true
  | _ => false
  end.

(** A channel with a Warning-Low threshold at 1 and a Critical-High one at
    4.5, scale factor 1. *)
Definition guarded_channel : ADCSensor :=
  after (constructor (has_level WARNING) (has_level CRITICAL)
           "/sys/bus/iio/devices/iio:device0/in_voltage1_raw" "ADC 1"
           [mkThreshold WARNING LOW (IEEE.double_of_Z 1);
            mkThreshold CRITICAL HIGH four_and_a_half]
           (IEEE.double_of_Z 1) "adc1" 5 (fun _ => true)).

(** Closed facts are settled by evaluation. *)
Ltac computed := vm_compute; first [reflexivity | discriminate | intro; discriminate].

(** ** Lemmas on the arithmetic *)

Lemma SFcompare_Eq_sym (x y : spec_float) :
  SFcompare x y = Some Eq -> SFcompare y x = Some Eq.
Proof.
  destruct x as [sx|sx| |sx mx ex], y as [sy|sy| |sy my ey]; simpl;
    try destruct sx; try destruct sy; try discriminate; auto.
  - destruct (Z.compare_spec ex ey); try discriminate.
    subst. rewrite Z.compare_refl. intro H. injection H as H.
    apply (f_equal CompOpp) in H. rewrite CompOpp_involutive in H. simpl in H.
    apply Pos.compare_eq in H. subst. now rewrite Pos.compare_cont_refl.
  - destruct (Z.compare_spec ex ey); try discriminate.
    subst. rewrite Z.compare_refl. intro H. injection H as H.
    apply Pos.compare_eq in H. subst. now rewrite Pos.compare_cont_refl.
Qed.

Lemma equal_not_above (x y : IEEE.double) :
  SFeqb x y = true -> IEEE.gt x y = false /\ IEEE.lt x y = false.
Proof.
  unfold SFeqb, IEEE.gt, IEEE.lt, SFltb. intro H.
  destruct (SFcompare x y) as [[| |]|] eqn:E; try discriminate.
  now rewrite (SFcompare_Eq_sym _ _ E).
Qed.

Lemma nan_differs (x y : IEEE.double) :
  IEEE.is_nan x = true \/ IEEE.is_nan y = true -> IEEE.ne x y = true.
Proof.
  intros [H|H]; destruct x, y; try discriminate; reflexivity.
Qed.

(** ** Lemmas on the member functions *)

Lemma assert_thresholds_run (s : ADCSensor) (t : Threshold) (b : bool) :
  assert_thresholds (thresholds.level t) (thresholds.direction t) b s =
  mkRun (Normal tt) s
    [match interface_of s (thresholds.level t) with
     | Some i =>
         set_property i (alarm_identity (thresholds.level t) (thresholds.direction t))
           (Boolean b)
     | None => cout trying_to_set_uninitialized_interface
     end].
Proof.
  destruct t as [[|] [|] v]; unfold assert_thresholds, bind, gets, emit; simpl;
    match goal with |- context [match ?i with _ => _ end] => destruct i end;
    reflexivity.
Qed.

Lemma bind_normal {A B} (m : M A) (k : A -> M B) (s s1 : ADCSensor) (a : A)
    (t1 : list event) :
  m s = mkRun (Normal a) s1 t1 ->
  bind m k s = mkRun (res (k a s1)) (after (k a s1)) (t1 ++ trace (k a s1)).
Proof. intro H. unfold bind. rewrite H. reflexivity. Qed.

Lemma check_each_run (ths : list Threshold) (s : ADCSensor) :
  check_each ths s = mkRun (Normal tt) s (map (alarm_event s (value s)) ths).
Proof.
  induction ths as [|t ths IH]; [reflexivity|].
  cbn [check_each map].
  rewrite (bind_normal _ _ s s (value s) []) by reflexivity.
  rewrite (bind_normal _ _ s s tt [alarm_event s (value s) t]).
  - rewrite IH. reflexivity.
  - unfold alarm_event, tripped.
    destruct (thresholds.direction t) eqn:D; cbn [Direction_eqb];
      match goal with |- context [if ?c then _ else _] => destruct c end;
      rewrite <- D, assert_thresholds_run; reflexivity.
Qed.

Lemma check_thresholds_run (s : ADCSensor) :
  check_thresholds s = mkRun (Normal tt) s (evaluation s (value s)).
Proof.
  unfold check_thresholds, bind, gets, evaluation. cbn [res after trace app].
  destruct (thresholds s) as [|t ths] eqn:E; [reflexivity|].
  rewrite check_each_run. reflexivity.
Qed.

Lemma update_value_run (v : IEEE.double) (s : ADCSensor) :
  update_value v s = mkRun (Normal tt) (set_value v s) (publication s v).
Proof.
  unfold update_value, bind, emit, modify. cbn [res after trace app].
  rewrite check_thresholds_run. reflexivity.
Qed.

Lemma increment_err_count_run (s : ADCSensor) :
  err_count s < INT_MAX ->
  increment_err_count s = mkRun (Normal tt) (set_err_count (err_count s + 1) s) [].
Proof.
  intro H. unfold increment_err_count, bind, gets. cbn [res after trace app].
  destruct (Z.eqb_spec (err_count s) INT_MAX); [lia|]. reflexivity.
Qed.

(** *** Equations of the monad *)

Lemma prefix_nil {A} (r : run A) : prefix [] r = r.
Proof. destruct r; reflexivity. Qed.

Lemma prefix_prefix {A} (t u : list event) (r : run A) :
  prefix t (prefix u r) = prefix (t ++ u) r.
Proof. unfold prefix; cbn [res after trace]. now rewrite app_assoc. Qed.

Lemma bind_assoc {A B C} (m : M A) (k : A -> M B) (h : B -> M C) (s : ADCSensor) :
  bind (bind m k) h s = bind m (fun a => bind (k a) h) s.
Proof.
  unfold bind. destruct (m s) as [[a|e|] s1 t1]; cbn [res after trace]; try reflexivity.
  destruct (k a s1) as [[b|e|] s2 t2]; cbn [res after trace]; try reflexivity.
  now rewrite app_assoc.
Qed.

Lemma bind_ext {A B} (m : M A) (k h : A -> M B) (s : ADCSensor) :
  (forall a u, k a u = h a u) -> bind m k s = bind m h s.
Proof.
  intro H. unfold bind. destruct (res (m s)); try reflexivity. now rewrite H.
Qed.

Lemma bind_ret {A B} (a : A) (k : A -> M B) (s : ADCSensor) :
  bind (ret a) k s = k a s.
Proof. unfold bind, ret; cbn [res after trace app]. now destruct (k a s). Qed.

Lemma bind_gets {A B} (f : ADCSensor -> A) (k : A -> M B) (s : ADCSensor) :
  bind (gets f) k s = k (f s) s.
Proof. unfold bind, gets; cbn [res after trace app]. now destruct (k (f s) s). Qed.

Lemma bind_modify {B} (f : ADCSensor -> ADCSensor) (k : unit -> M B) (s : ADCSensor) :
  bind (modify f) k s = k tt (f s).
Proof. unfold bind, modify; cbn [res after trace app]. now destruct (k tt (f s)). Qed.

Lemma bind_emit {B} (e : event) (k : unit -> M B) (s : ADCSensor) :
  bind (emit e) k s = prefix [e] (k tt s).
Proof. reflexivity. Qed.

Lemma bind_throw {A B} (e : exception) (k : A -> M B) (s : ADCSensor) :
  bind (throw e) k s = mkRun (Throws e) s [].
Proof. reflexivity. Qed.

Lemma bind_undefined {A B} (k : A -> M B) (s : ADCSensor) :
  bind undefined k s = mkRun Undefined s [].
Proof. reflexivity. Qed.

Lemma bind_update_value {B} (v : IEEE.double) (k : unit -> M B) (s : ADCSensor) :
  bind (update_value v) k s = prefix (publication s v) (k tt (set_value v s)).
Proof. unfold bind. rewrite update_value_run. reflexivity. Qed.

Lemma bind_increment_err_count {B} (k : unit -> M B) (s : ADCSensor) :
  bind increment_err_count k s =
  if err_count s =? INT_MAX then mkRun Undefined s []
  else k tt (set_err_count (err_count s + 1) s).
Proof.
  unfold increment_err_count. rewrite bind_assoc, bind_gets.
  destruct (err_count s =? INT_MAX); [reflexivity|apply bind_modify].
Qed.

(** The end of the handler, from the close of the device on. *)
Lemma reschedule_run (fd : Z) (s : ADCSensor) :
  (modify (set_input_dev None) ;;
   emit close ;;
   p <- gets path ;;
   emit (open p) ;;
   if fd <=? 0 then ret tt
   else
     modify (set_input_dev (Some fd)) ;;
     emit (assign fd) ;;
     emit (expires_from_now SENSOR_POLL_MS) ;;
     emit async_wait ;;
     modify (set_pending_wait true)) s
  = mkRun (Normal tt) (rescheduled fd s) (reschedule fd s).
Proof.
  rewrite bind_modify, bind_emit, bind_gets, bind_emit.
  unfold reschedule, rescheduled. cbn [path set_input_dev].
  destruct (fd <=? 0); [reflexivity|].
  rewrite bind_modify, !bind_emit. reflexivity.
Qed.

(** ** Lemmas on traces *)

Lemma published_app (t u : list event) :
  published (t ++ u) = published t ++ published u.
Proof.
  induction t as [|e t IH]; [reflexivity|].
  destruct e as [| | | |i p v| | | | | | | | |]; cbn [app published]; auto.
  destruct i, v; cbn [app]; now rewrite IH.
Qed.

Lemma bus_app (t u : list event) : bus (t ++ u) = bus t ++ bus u.
Proof. apply filter_app. Qed.

Lemma published_evaluation (s : ADCSensor) (v : IEEE.double) :
  published (evaluation s v) = [].
Proof.
  unfold evaluation. induction (thresholds s) as [|t ths IH]; [reflexivity|].
  cbn [map published]. unfold alarm_event at 1.
  destruct (interface_of s (thresholds.level t)) as [[| |]|]; exact IH.
Qed.

Lemma bus_evaluation (s : ADCSensor) (v : IEEE.double) :
  bus (evaluation s v) = evaluation s v.
Proof.
  unfold evaluation, bus. induction (thresholds s) as [|t ths IH]; [reflexivity|].
  cbn [map filter]. unfold alarm_event at 1.
  destruct (interface_of s (thresholds.level t)); cbn [on_bus]; now rewrite IH.
Qed.

Lemma published_publication (s : ADCSensor) (v : IEEE.double) :
  published (publication s v) = [v].
Proof. unfold publication. cbn [published]. now rewrite published_evaluation. Qed.

Lemma bus_publication (s : ADCSensor) (v : IEEE.double) :
  bus (publication s v) = publication s v.
Proof.
  unfold publication, bus. cbn [filter on_bus]. f_equal. apply bus_evaluation.
Qed.

Lemma published_reschedule (fd : Z) (s : ADCSensor) : published (reschedule fd s) = [].
Proof. unfold reschedule. now destruct (fd <=? 0). Qed.

Lemma bus_reschedule (fd : Z) (s : ADCSensor) : bus (reschedule fd s) = [].
Proof. unfold reschedule. now destruct (fd <=? 0). Qed.

Lemma same_wiring_refl (s : ADCSensor) : same_wiring s s.
Proof. now repeat split. Qed.

Lemma same_wiring_trans (s s' s'' : ADCSensor) :
  same_wiring s s' -> same_wiring s' s'' -> same_wiring s s''.
Proof. unfold same_wiring. intuition congruence. Qed.

Lemma publication_same_wiring (s s' : ADCSensor) (v : IEEE.double) :
  same_wiring s s' -> publication s' v = publication s v.
Proof.
  intros (Ht & Hw & Hc). unfold publication, evaluation. rewrite Ht. f_equal.
  apply map_ext. intro t. unfold alarm_event, interface_of.
  destruct (thresholds.level t); now rewrite ?Hw, ?Hc.
Qed.

Lemma size_t_of_small_int (n : Z) : 0 <= n <= INT_MAX -> size_t_of_int n = n.
Proof. intro H. unfold size_t_of_int. apply Z.mod_small. unfold INT_MAX in H. lia. Qed.

Lemma warns_counted (s : ADCSensor) :
  0 <= err_count s < INT_MAX ->
  warns (counted s) = (err_count s + 1 =? WARN_AFTER_ERROR_COUNT).
Proof.
  intro H. unfold warns, counted. cbn [err_count set_err_count].
  rewrite size_t_of_small_int by lia. reflexivity.
Qed.

Section Handler.

Variable stof : string -> stof_result.

(** The handler from the test of the error count on. *)
Lemma handler_tail (fd : Z) (s : ADCSensor) :
  (n <- gets err_count ;;
   (if size_t_of_int n =? WARN_AFTER_ERROR_COUNT then
      update_value (IEEE.double_of_Z 0)
    else ret tt) ;;
   modify (set_input_dev None) ;;
   emit close ;;
   p <- gets path ;;
   emit (open p) ;;
   if fd <=? 0 then ret tt
   else
     modify (set_input_dev (Some fd)) ;;
     emit (assign fd) ;;
     emit (expires_from_now SENSOR_POLL_MS) ;;
     emit async_wait ;;
     modify (set_pending_wait true)) s
  = mkRun (Normal tt) (rescheduled fd (warned s)) (forced s ++ reschedule fd s).
Proof.
  rewrite bind_gets. unfold forced, warned, warns.
  destruct (size_t_of_int (err_count s) =? WARN_AFTER_ERROR_COUNT).
  - rewrite bind_update_value, reschedule_run. reflexivity.
  - rewrite bind_ret, reschedule_run. reflexivity.
Qed.

Lemma handle_response_cancelled (err : error_code) (fd : Z) (s : ADCSensor) :
  verdict_of stof err s = Cancelled ->
  handle_response stof err fd s = mkRun (Normal tt) s [].
Proof.
  unfold verdict_of, handle_response.
  destruct (error_eqb err bad_file_descriptor); [reflexivity|].
  destruct (error_not err); [|discriminate].
  destruct (stof (response s)); discriminate.
Qed.

Lemma handle_response_sample (err : error_code) (fd : Z) (s : ADCSensor)
    (x : IEEE.float) :
  verdict_of stof err s = Sample x ->
  handle_response stof err fd s =
  mkRun (Normal tt)
    (rescheduled fd
       (set_err_count 0
          (if IEEE.ne (sample_value x s) (value s)
           then set_value (sample_value x s) (consumed s) else consumed s)))
    ((if IEEE.ne (sample_value x s) (value s)
      then publication s (sample_value x s) else []) ++ reschedule fd s).
Proof.
  unfold verdict_of, response, handle_response, consumed.
  destruct (error_eqb err bad_file_descriptor); [discriminate|].
  destruct (error_not err); [|discriminate].
  intros H.
  rewrite !bind_assoc, bind_gets.
  destruct (getline (read_buf s)) as [text rest]. cbn [fst snd] in *.
  destruct (stof text) as [y| |]; try discriminate.
  injection H as ->.
  rewrite !bind_assoc, bind_modify, !bind_assoc, bind_gets, !bind_assoc, bind_gets.
  cbn [scale_factor value set_read_buf].
  fold (scaled_sample x (scale_factor s)). fold (sample_value x s).
  destruct (IEEE.ne (sample_value x s) (value s)).
  - rewrite !bind_assoc, bind_update_value, bind_modify, handler_tail. reflexivity.
  - rewrite bind_assoc, bind_ret, bind_modify, handler_tail. reflexivity.
Qed.

Lemma handle_response_read_failure (err : error_code) (fd : Z) (s : ADCSensor) :
  verdict_of stof err s = ReadFailure ->
  err_count s <> INT_MAX ->
  handle_response stof err fd s =
  mkRun (Normal tt)
    (rescheduled fd (warned (counted s)))
    (cerr (Failure_to_read_sensor (name s) (path s) err)
       :: forced (counted s) ++ reschedule fd s).
Proof.
  unfold verdict_of, handle_response.
  destruct (error_eqb err bad_file_descriptor); [discriminate|].
  destruct (error_not err); [destruct (stof (response s)); discriminate|].
  intros _ H.
  rewrite !bind_assoc, bind_gets, !bind_assoc, bind_gets, !bind_assoc, bind_emit.
  rewrite bind_increment_err_count.
  destruct (Z.eqb_spec (err_count s) INT_MAX); [contradiction|].
  fold (counted s). rewrite handler_tail. reflexivity.
Qed.

Lemma handle_response_parse_failure (err : error_code) (fd : Z) (s : ADCSensor) :
  verdict_of stof err s = ParseFailure ->
  err_count s <> INT_MAX ->
  handle_response stof err fd s =
  mkRun (Normal tt)
    (rescheduled fd (warned (counted (consumed s))))
    (forced (counted (consumed s)) ++ reschedule fd s).
Proof.
  unfold verdict_of, response, handle_response, consumed.
  destruct (error_eqb err bad_file_descriptor); [discriminate|].
  destruct (error_not err); [|discriminate].
  intros H L.
  rewrite !bind_assoc, bind_gets.
  destruct (getline (read_buf s)) as [text rest]. cbn [fst snd] in *.
  destruct (stof text) as [y| |]; try discriminate.
  rewrite !bind_assoc, bind_modify, bind_increment_err_count.
  cbn [err_count set_read_buf].
  destruct (Z.eqb_spec (err_count s) INT_MAX); [contradiction|].
  fold (counted (set_read_buf rest s)). rewrite handler_tail. reflexivity.
Qed.

Lemma handle_response_range_failure (err : error_code) (fd : Z) (s : ADCSensor) :
  verdict_of stof err s = RangeFailure ->
  handle_response stof err fd s = mkRun (Throws out_of_range) (consumed s) [].
Proof.
  unfold verdict_of, response, handle_response, consumed.
  destruct (error_eqb err bad_file_descriptor); [discriminate|].
  destruct (error_not err); [|discriminate].
  intros H.
  rewrite !bind_assoc, bind_gets.
  destruct (getline (read_buf s)) as [text rest]. cbn [fst snd] in *.
  destruct (stof text) as [y| |]; try discriminate.
  rewrite !bind_assoc, bind_modify, bind_throw. reflexivity.
Qed.

Lemma handle_response_read_overflow (err : error_code) (fd : Z) (s : ADCSensor) :
  verdict_of stof err s = ReadFailure ->
  err_count s = INT_MAX ->
  handle_response stof err fd s =
  mkRun Undefined s [cerr (Failure_to_read_sensor (name s) (path s) err)].
Proof.
  unfold verdict_of, handle_response.
  destruct (error_eqb err bad_file_descriptor); [discriminate|].
  destruct (error_not err); [destruct (stof (response s)); discriminate|].
  intros _ H.
  rewrite !bind_assoc, bind_gets, !bind_assoc, bind_gets, !bind_assoc, bind_emit.
  rewrite bind_increment_err_count, H. reflexivity.
Qed.

Lemma handle_response_parse_overflow (err : error_code) (fd : Z) (s : ADCSensor) :
  verdict_of stof err s = ParseFailure ->
  err_count s = INT_MAX ->
  handle_response stof err fd s = mkRun Undefined (consumed s) [].
Proof.
  unfold verdict_of, response, handle_response, consumed.
  destruct (error_eqb err bad_file_descriptor); [discriminate|].
  destruct (error_not err); [|discriminate].
  intros H L.
  rewrite !bind_assoc, bind_gets.
  destruct (getline (read_buf s)) as [text rest]. cbn [fst snd] in *.
  destruct (stof text) as [y| |]; try discriminate.
  rewrite !bind_assoc, bind_modify, bind_increment_err_count.
  cbn [err_count set_read_buf]. rewrite L. reflexivity.
Qed.

(** *** What every handler run leaves on the bus *)

Lemma warned_observed (s : ADCSensor) :
  same_wiring s (warned s)
  /\ bus (forced s) = flat_map (publication s) (published (forced s))
  /\ value (warned s) = last (published (forced s)) (value s).
Proof.
  unfold warned, forced. destruct (warns s).
  - rewrite published_publication, bus_publication. cbn [flat_map last].
    rewrite app_nil_r. repeat split.
  - repeat split.
Qed.

Lemma handler_observed (err : error_code) (fd : Z) (s : ADCSensor) :
  let r := handle_response stof err fd s in
  same_wiring s (after r)
  /\ bus (trace r) = flat_map (publication s) (published (trace r))
  /\ value (after r) = last (published (trace r)) (value s).
Proof.
  assert (R : forall u, same_wiring s u -> value (rescheduled fd u) = value u
                        /\ same_wiring s (rescheduled fd u)).
  { intros u H. unfold rescheduled. destruct (fd <=? 0); split; auto. }
  assert (F : forall u, same_wiring s u ->
              same_wiring s (rescheduled fd (warned u))
              /\ bus (forced u) = flat_map (publication s) (published (forced u))
              /\ value (rescheduled fd (warned u))
                 = last (published (forced u)) (value u)).
  { intros u H. destruct (warned_observed u) as (W & B & U).
    destruct (R (warned u)) as [E ?]; [eapply same_wiring_trans; eassumption|].
    rewrite E, B, U. repeat split; try apply H0.
    apply flat_map_ext. intro v. now apply publication_same_wiring. }
  destruct (verdict_of stof err s) as [|x| | |] eqn:V; cbv zeta.
  - rewrite (handle_response_cancelled _ _ _ V). repeat split.
  - rewrite (handle_response_sample _ _ _ _ V). cbn [res after trace].
    rewrite published_app, bus_app, published_reschedule, bus_reschedule, !app_nil_r.
    destruct (IEEE.ne (sample_value x s) (value s)).
    + rewrite published_publication, bus_publication. cbn [flat_map last].
      rewrite app_nil_r.
      destruct (R (set_err_count 0 (set_value (sample_value x s) (consumed s))))
        as [E ?]; [repeat split|]. rewrite E.
      split; [assumption|split; reflexivity].
    + destruct (R (set_err_count 0 (consumed s))) as [E ?]; [repeat split|].
      rewrite E. split; [assumption|split; reflexivity].
  - destruct (Z.eq_dec (err_count s) INT_MAX) as [L|L].
    + rewrite (handle_response_read_overflow _ _ _ V L). repeat split.
    + rewrite (handle_response_read_failure _ _ _ V L). cbn [res after trace].
      change (cerr ?m :: ?t) with ([cerr m] ++ t).
      rewrite !published_app, !bus_app, published_reschedule, bus_reschedule,
        !app_nil_r. cbn [published bus filter on_bus app].
      apply (F (counted s)). repeat split.
  - destruct (Z.eq_dec (err_count s) INT_MAX) as [L|L].
    + rewrite (handle_response_parse_overflow _ _ _ V L). repeat split.
    + rewrite (handle_response_parse_failure _ _ _ V L). cbn [res after trace].
      rewrite !published_app, !bus_app, published_reschedule, bus_reschedule,
        !app_nil_r.
      apply (F (counted (consumed s))). repeat split.
  - rewrite (handle_response_range_failure _ _ _ V). repeat split.
Qed.

End Handler.

(** ** Lemmas on the poll loop *)

Lemma bind_after_normal {A B} (m : M A) (k : A -> M B) (s : ADCSensor) (a : A) :
  res (m s) = Normal a ->
  bind m k s = prefix (trace (m s)) (k a (after (m s))).
Proof. intro H. unfold bind. rewrite H. reflexivity. Qed.

Lemma last_app_default {A} (l l' : list A) (d : A) :
  last (l ++ l') d = last l' (last l d).
Proof.
  destruct l' as [|b l'] using rev_ind.
  - now rewrite app_nil_r.
  - now rewrite app_assoc, !last_last.
Qed.

Section Loop.

Variable stof : string -> stof_result.

Lemma read_completes_run (c : completion) (s : ADCSensor) :
  read_completes stof c s =
  handle_response stof (ec c) (reopened c) (delivered c s).
Proof.
  unfold read_completes. rewrite bind_modify, bind_gets, bind_modify. reflexivity.
Qed.

Lemma wait_completes_expired (s : ADCSensor) :
  wait_completes no_error s =
  mkRun (Normal tt) (set_pending_read true (set_pending_wait false s))
    [async_read_until].
Proof. reflexivity. Qed.

Lemma cycle_idle (c : completion) (s : ADCSensor) :
  pending_read s = false -> cycle stof c s = mkRun (Normal tt) s [].
Proof. intro H. unfold cycle. rewrite bind_gets, H. reflexivity. Qed.

Lemma cycle_reading (c : completion) (s : ADCSensor) :
  pending_read s = true ->
  cycle stof c s =
  cycle_of (handle_response stof (ec c) (reopened c) (delivered c s)).
Proof.
  intro H. unfold cycle. rewrite bind_gets, H. unfold bind at 1.
  rewrite read_completes_run. unfold cycle_of.
  destruct (handle_response stof (ec c) (reopened c) (delivered c s))
    as [[[]|e|] s' t]; cbn [res after trace]; try reflexivity.
  rewrite bind_gets. destruct (pending_wait s').
  - rewrite wait_completes_expired. reflexivity.
  - cbn [ret res after trace]. now rewrite app_nil_r.
Qed.

Lemma cycle_observed (c : completion) (s : ADCSensor) :
  let r := cycle stof c s in
  same_wiring s (after r)
  /\ bus (trace r) = flat_map (publication s) (published (trace r))
  /\ value (after r) = last (published (trace r)) (value s).
Proof.
  cbv zeta. destruct (pending_read s) eqn:P.
  - rewrite (cycle_reading _ _ P).
    pose proof (handler_observed stof (ec c) (reopened c) (delivered c s))
      as (W & B & U). cbv zeta in *.
    rewrite (flat_map_ext _ (publication s)) in B
      by (intro v; apply publication_same_wiring; repeat split).
    change (value (delivered c s)) with (value s) in U.
    assert (W' : same_wiring s
                   (after (handle_response stof (ec c) (reopened c) (delivered c s))))
      by (eapply same_wiring_trans; [|exact W]; repeat split).
    unfold cycle_of.
    destruct (handle_response stof (ec c) (reopened c) (delivered c s))
      as [[[]|e|] s' t]; cbn [res after trace] in *; auto.
    destruct (pending_wait s'); cbn [res after trace]; auto.
    rewrite published_app, bus_app. cbn [published bus filter on_bus].
    rewrite !app_nil_r. auto.
  - rewrite (cycle_idle _ _ P). repeat split.
Qed.

Lemma poll_observed (cs : list completion) (s : ADCSensor) :
  let r := poll stof cs s in
  same_wiring s (after r)
  /\ bus (trace r) = flat_map (publication s) (published (trace r))
  /\ value (after r) = last (published (trace r)) (value s).
Proof.
  cbv zeta. revert s. induction cs as [|c cs IH]; intro s.
  - repeat split.
  - cbn [poll]. pose proof (cycle_observed c s) as (W & B & U). cbv zeta in *.
    destruct (res (cycle stof c s)) as [[]|e|] eqn:R.
    + rewrite (bind_after_normal _ _ _ _ R). unfold prefix. cbn [res after trace].
      specialize (IH (after (cycle stof c s))). destruct IH as (W' & B' & U').
      rewrite published_app, bus_app, flat_map_app, last_app_default, B, B', U', U.
      split; [eapply same_wiring_trans; eassumption|]. split; [|reflexivity].
      f_equal. apply flat_map_ext. intro v. now apply publication_same_wiring.
    + unfold bind. rewrite R. cbn [res after trace]. auto.
    + unfold bind. rewrite R. cbn [res after trace]. auto.
Qed.

Lemma poll_app (cs ds : list completion) (s : ADCSensor) :
  poll stof (cs ++ ds) s = bind (poll stof cs) (fun _ => poll stof ds) s.
Proof.
  revert s. induction cs as [|c cs IH]; intro s.
  - cbn [app poll]. now rewrite bind_ret.
  - cbn [app poll]. rewrite bind_assoc. apply bind_ext. intros _ u. apply IH.
Qed.

End Loop.

Section Streaks.

Variable stof : string -> stof_result.

Lemma rescheduled_fields (fd : Z) (u : ADCSensor) :
  err_count (rescheduled fd u) = err_count u
  /\ value (rescheduled fd u) = value u
  /\ pending_read (rescheduled fd u) = pending_read u
  /\ pending_wait (rescheduled fd u) = ((0 <? fd) || pending_wait u).
Proof.
  unfold rescheduled. destruct (Z.leb_spec fd 0), (Z.ltb_spec 0 fd);
    try lia; repeat split.
Qed.

Lemma warned_fields (u : ADCSensor) :
  err_count (warned u) = err_count u
  /\ pending_read (warned u) = pending_read u
  /\ pending_wait (warned u) = pending_wait u.
Proof. unfold warned. destruct (warns u); repeat split. Qed.

Lemma published_forced (u : ADCSensor) :
  published (forced u) = if warns u then [zero] else [].
Proof.
  unfold forced. destruct (warns u); [apply published_publication|reflexivity].
Qed.

(** One failed cycle: the count goes up by one and zero is published when
    the count becomes 10. *)
Lemma cycle_failed (c : completion) (s : ADCSensor) :
  pending_read s = true ->
  failed (verdict_of stof (ec c) (delivered c s)) = true ->
  0 < reopened c ->
  0 <= err_count s < INT_MAX ->
  let r := cycle stof c s in
  res r = Normal tt
  /\ pending_read (after r) = true
  /\ err_count (after r) = err_count s + 1
  /\ published (trace r) =
     if err_count s + 1 =? WARN_AFTER_ERROR_COUNT then [zero] else [].
Proof.
  intros P F O L. cbv zeta. rewrite (cycle_reading _ _ _ P).
  assert (N : err_count (delivered c s) <> INT_MAX) by (cbn; lia).
  assert (G : forall u, err_count u = err_count s ->
              let a := rescheduled (reopened c) (warned (counted u)) in
              pending_wait a = true /\ err_count a = err_count s + 1
              /\ (if warns (counted u) then [zero] else [])
                 = if err_count s + 1 =? WARN_AFTER_ERROR_COUNT then [zero] else []).
  { intros u E. cbv zeta.
    destruct (rescheduled_fields (reopened c) (warned (counted u)))
      as (-> & _ & _ & ->).
    destruct (warned_fields (counted u)) as (-> & _ & _).
    rewrite warns_counted by lia. rewrite E.
    destruct (Z.ltb_spec 0 (reopened c)); [|lia]. repeat split.
    unfold counted. cbn [err_count set_err_count]. now rewrite E. }
  destruct (verdict_of stof (ec c) (delivered c s)) eqn:V; try discriminate.
  - rewrite (handle_response_read_failure _ _ _ _ V N).
    destruct (G (delivered c s) eq_refl) as (W & E & Z0). cbv zeta in *.
    unfold cycle_of. cbn [res after trace]. rewrite W. cbn [res after trace].
    repeat split; [exact E|].
    change (cerr ?m :: ?t) with ([cerr m] ++ t).
    rewrite !published_app, published_forced, published_reschedule.
    cbn [published app]. now rewrite !app_nil_r.
  - rewrite (handle_response_parse_failure _ _ _ _ V N).
    destruct (G (consumed (delivered c s)) eq_refl) as (W & E & Z0). cbv zeta in *.
    unfold cycle_of. cbn [res after trace]. rewrite W. cbn [res after trace].
    repeat split; [exact E|].
    rewrite !published_app, published_forced, published_reschedule.
    cbn [published app]. now rewrite !app_nil_r.
Qed.

(** One cycle whose line parses: whatever the count was, it is 0. *)
Lemma cycle_sample (c : completion) (s : ADCSensor) (x : IEEE.float) :
  pending_read s = true ->
  verdict_of stof (ec c) (delivered c s) = Sample x ->
  let r := cycle stof c s in
  res r = Normal tt /\ err_count (after r) = 0.
Proof.
  intros P V. cbv zeta. rewrite (cycle_reading _ _ _ P).
  rewrite (handle_response_sample _ _ _ _ _ V). unfold cycle_of.
  cbn [res after trace].
  match goal with |- context [pending_wait ?a] =>
    destruct (rescheduled_fields (reopened c)
                (set_err_count 0
                   (if IEEE.ne (sample_value x (delivered c s)) (value (delivered c s))
                    then set_value (sample_value x (delivered c s))
                           (consumed (delivered c s))
                    else consumed (delivered c s)))) as (E & _);
    destruct (pending_wait a)
  end; cbn [res after trace err_count set_pending_read set_pending_wait];
    rewrite ?E; split; reflexivity.
Qed.

Lemma poll_streak (cs : list completion) (s : ADCSensor) :
  pending_read s = true ->
  0 <= err_count s ->
  err_count s + Z.of_nat (List.length cs) <= INT_MAX ->
  streak stof cs s = true ->
  let r := poll stof cs s in
  res r = Normal tt
  /\ pending_read (after r) = true
  /\ err_count (after r) = err_count s + Z.of_nat (List.length cs)
  /\ published (trace r) =
     if (err_count s <? WARN_AFTER_ERROR_COUNT)
        && (WARN_AFTER_ERROR_COUNT <=? err_count s + Z.of_nat (List.length cs))
     then [zero] else [].
Proof.
  cbv zeta. revert s. induction cs as [|c cs IH]; intros s P L B S.
  - cbn [poll List.length Z.of_nat ret res after trace published].
    rewrite Z.add_0_r. split; [reflexivity|]. split; [exact P|].
    split; [reflexivity|]. unfold WARN_AFTER_ERROR_COUNT.
    destruct (Z.ltb_spec (err_count s) 10), (Z.leb_spec 10 (err_count s));
      try lia; reflexivity.
  - cbn [streak] in S. apply andb_prop in S as [S S3].
    apply andb_prop in S as [S1 S2]. apply Z.ltb_lt in S2.
    cbn [List.length] in B. rewrite Nat2Z.inj_succ in B.
    destruct (cycle_failed c s P S1 S2) as (R & P' & E & Pb); [lia|].
    cbv zeta in *. cbn [poll]. rewrite (bind_after_normal _ _ _ _ R).
    unfold prefix. cbn [res after trace].
    destruct (IH (after (cycle stof c s)) P') as (R'' & P'' & E'' & Pb''); auto;
      try (rewrite E; lia).
    rewrite R'', P'', E'', E, published_app, Pb, Pb'', E.
    cbn [List.length]. rewrite Nat2Z.inj_succ.
    repeat split; [lia|].
    unfold WARN_AFTER_ERROR_COUNT.
    destruct (Z.eqb_spec (err_count s + 1) 10),
      (Z.ltb_spec (err_count s + 1) 10),
      (Z.leb_spec 10 (err_count s + 1 + Z.of_nat (List.length cs))),
      (Z.ltb_spec (err_count s) 10),
      (Z.leb_spec 10 (err_count s + Z.succ (Z.of_nat (List.length cs))));
      try lia; reflexivity.
Qed.

End Streaks.

(** ** Lemmas on the constructor *)

Lemma keeps_ret {A} (a : A) : keeps_sensor (ret a).
Proof. intro s. split; [reflexivity|now exists a]. Qed.

Lemma keeps_gets {A} (f : ADCSensor -> A) : keeps_sensor (gets f).
Proof. intro s. split; [reflexivity|now exists (f s)]. Qed.

Lemma keeps_emit (e : event) : keeps_sensor (emit e).
Proof. intro s. split; [reflexivity|now exists tt]. Qed.

Lemma keeps_bind {A B} (m : M A) (k : A -> M B) :
  keeps_sensor m -> (forall a, keeps_sensor (k a)) -> keeps_sensor (bind m k).
Proof.
  intros Hm Hk s. destruct (Hm s) as [E [a R]]. unfold bind. rewrite R, E.
  cbn [res after trace]. apply Hk.
Qed.

Lemma keeps_if {A} (b : bool) (m n : M A) :
  keeps_sensor m -> keeps_sensor n -> keeps_sensor (if b then m else n).
Proof. now destruct b. Qed.

Create HintDb keeps.
#[local] Hint Resolve keeps_ret keeps_gets keeps_emit keeps_bind keeps_if : keeps.

Lemma keeps_register_thresholds (ths : list Threshold) :
  keeps_sensor (register_thresholds ths).
Proof.
  induction ths as [|t ths IH]; cbn [register_thresholds]; auto with keeps.
  apply keeps_bind; [auto with keeps|]. intro w.
  apply keeps_bind; [auto with keeps|]. intro c.
  apply keeps_bind; [|intro; exact IH].
  repeat apply keeps_if; destruct w, c; auto with keeps.
Qed.

Lemma keeps_set_initial_properties (initialized : dbus_interface -> bool) :
  keeps_sensor (set_initial_properties initialized).
Proof.
  unfold set_initial_properties.
  repeat first
    [ apply keeps_register_thresholds
    | apply keeps_ret | apply keeps_gets | apply keeps_emit
    | apply keeps_if
    | apply keeps_bind; [|intro]
    | match goal with |- keeps_sensor (match ?i with Some _ => _ | None => _ end) =>
        destruct i end ].
Qed.

(** The members as the constructor leaves them: what its initialiser list
    says, with the first read outstanding. *)
Lemma constructor_run (Hw Hc : list Threshold -> bool) (path sensor_name : string)
    (ths : list Threshold) (scale : IEEE.double) (cfg : string) (fd : Z)
    (initialized : dbus_interface -> bool) :
  let born := constructor Hw Hc path sensor_name ths scale cfg fd initialized in
  res born = Normal tt
  /\ after born =
     mkADCSensor path cfg (replace_spaces sensor_name) ths scale
       (if Hw ths then Some Threshold_Warning else None)
       (if Hc ths then Some Threshold_Critical else None)
       (Some fd) true false EmptyString IEEE.quiet_NaN 0
       (IEEE.double_of_Z 20) (IEEE.double_of_Z 0).
Proof.
  cbv zeta. unfold constructor.
  set (members := mkADCSensor _ _ _ _ _ _ _ _ _ _ _ _ _ _ _).
  rewrite !bind_emit. unfold prefix. cbn [res after trace].
  assert (K : forall (m : M unit) (k : unit -> M unit) s,
             keeps_sensor m ->
             res (bind m k s) = res (k tt s) /\ after (bind m k s) = after (k tt s)).
  { intros m k s H. destruct (H s) as [E [[] R]]. unfold bind. rewrite R, E. now split. }
  destruct (K (if Hw ths then emit (add_interface Threshold_Warning
                                      (object_path (replace_spaces sensor_name)))
               else ret tt)
              (fun _ =>
                 (if Hc ths then emit (add_interface Threshold_Critical
                                         (object_path (replace_spaces sensor_name)))
                  else ret tt) ;;
                 set_initial_properties initialized ;; setup_read) members)
    as [-> ->]; [auto with keeps|].
  destruct (K (if Hc ths then emit (add_interface Threshold_Critical
                                      (object_path (replace_spaces sensor_name)))
               else ret tt)
              (fun _ => set_initial_properties initialized ;; setup_read) members)
    as [-> ->]; [auto with keeps|].
  destruct (K (set_initial_properties initialized) (fun _ => setup_read) members)
    as [-> ->]; [apply keeps_set_initial_properties|].
  split; reflexivity.
Qed.

(** ** The threshold engine *)

Lemma evaluation_exposed (s : ADCSensor) (v : IEEE.double) :
  exposes_alarms s ->
  evaluation s v =
  map (fun t =>
         set_property (alarm_interface (thresholds.level t))
           (alarm_identity (thresholds.level t) (thresholds.direction t))
           (Boolean (tripped v t)))
      (thresholds s).
Proof.
  intro H. unfold evaluation. apply map_ext_in. intros t I.
  unfold alarm_event. now rewrite (H t I).
Qed.

(** C3. Evaluating the thresholds of a sensor that has the interfaces of its
    thresholds sends, for every threshold of the set and in their order, one
    boolean on the alarm of that threshold: for a High threshold it is
    [value > trip value], for a Low threshold [value < trip value].  The
    comparison is strict: a threshold whose trip value equals the value is
    sent [false]. *)
Theorem thresholds_compare_strictly (s : ADCSensor) :
  exposes_alarms s ->
  res (check_thresholds s) = Normal tt
  /\ trace (check_thresholds s) =
     map (fun t =>
            set_property (alarm_interface (thresholds.level t))
              (alarm_identity (thresholds.level t) (thresholds.direction t))
              (Boolean
                 match thresholds.direction t with
                 | HIGH => IEEE.gt (value s) (thresholds.value t)
                 | LOW => IEEE.lt (value s) (thresholds.value t)
                 end))
         (thresholds s)
  /\ forall t, In t (thresholds s) ->
       SFeqb (value s) (thresholds.value t) = true ->
       In (set_property (alarm_interface (thresholds.level t))
             (alarm_identity (thresholds.level t) (thresholds.direction t))
             (Boolean false))
          (trace (check_thresholds s)).
Proof.
  intro H. rewrite check_thresholds_run. cbn [res trace].
  rewrite (evaluation_exposed _ _ H). split; [reflexivity|]. split; [reflexivity|].
  intros t I E. apply in_map_iff. exists t. split; [|exact I].
  destruct (equal_not_above _ _ E) as [G L]. unfold tripped.
  destruct (thresholds.direction t); now rewrite ?G, ?L.
Qed.

(** The example of the spec: a Critical-High threshold at 4.5 is cleared at
    exactly 4.5 and asserted at 5. *)
Lemma thresholds_compare_strictly_witness :
  exposes_alarms (set_value four_and_a_half (channel 1))
  /\ trace (check_thresholds (set_value four_and_a_half (channel 1)))
     = [set_property Threshold_Critical "CriticalAlarmHigh" (Boolean false)]
  /\ trace (check_thresholds (set_value (IEEE.double_of_Z 5) (channel 1)))
     = [set_property Threshold_Critical "CriticalAlarmHigh" (Boolean true)].
Proof.
  assert (H : forall v, exposes_alarms (set_value v (channel 1))).
  { intros v t [<-|[]]. reflexivity. }
  split; [apply H|]. split.
  - exact (proj1 (proj2 (thresholds_compare_strictly _ (H four_and_a_half)))).
  - exact (proj1 (proj2 (thresholds_compare_strictly _ (H (IEEE.double_of_Z 5))))).
Defined.

(** ** Cancellation *)

Lemma destructor_run (s : ADCSensor) :
  destructor s =
  mkRun (Normal tt) (set_input_dev None s)
    [close; cancel;
     remove_interface (threshold_interface_warning s);
     remove_interface (threshold_interface_critical s);
     remove_interface (Some Sensor_Value)].
Proof.
  unfold destructor.
  rewrite bind_modify, !bind_emit, bind_gets, bind_emit, bind_gets, bind_emit.
  reflexivity.
Qed.

(** The two guards: the handler returns at once on [bad_file_descriptor] and
    the timer callback on [operation_aborted], with no call made and the
    sensor untouched; so do a read completion and a timer completion that
    carry these codes after the destructor. *)
Lemma guards_return_at_once (stof : string -> stof_result)
    (s : ADCSensor) (text : string) (fd : Z) :
  let torn := after (destructor s) in
  let r := (read_completes stof (mkCompletion text bad_file_descriptor fd) ;;
            wait_completes operation_aborted) torn in
  input_dev torn = None
  /\ handle_response stof bad_file_descriptor fd torn = mkRun (Normal tt) torn []
  /\ wait_handler operation_aborted torn = mkRun (Normal tt) torn []
  /\ res r = Normal tt
  /\ trace r = []
  /\ err_count (after r) = err_count s
  /\ value (after r) = value s
  /\ input_dev (after r) = None
  /\ pending_read (after r) = false
  /\ pending_wait (after r) = false.
Proof.
  cbv zeta. split; [reflexivity|]. split; [reflexivity|]. split; [reflexivity|].
  rewrite bind_after_normal with (a := tt)
    by (rewrite read_completes_run; reflexivity).
  rewrite read_completes_run. repeat split.
Qed.

(** The guard of the handler is on the closed handle alone: a read that
    completes with [operation_aborted] is handled as a failed read. *)
Lemma aborted_read_is_a_read_failure (stof : string -> stof_result) (s : ADCSensor) :
  verdict_of stof operation_aborted s = ReadFailure.
Proof. reflexivity. Qed.

(** The timer's half.  A sensor destroyed while its wait is outstanding: the
    cancelled callback returns at once, and the destruction makes the calls
    of the destructor and no other. *)
Lemma cancelled_wait_does_nothing (stof : string -> stof_result) (fd : Z)
    (s : ADCSensor) :
  pending_wait s = true ->
  pending_read s = false ->
  teardown stof fd s =
  mkRun (Normal tt) (set_pending_wait false (set_input_dev None s))
    (trace (destructor s)).
Proof.
  intros W R. unfold teardown.
  rewrite (bind_after_normal _ _ _ tt) by (rewrite destructor_run; reflexivity).
  rewrite destructor_run. cbn [after trace].
  rewrite bind_gets. cbn [pending_wait set_input_dev]. rewrite W.
  rewrite (bind_after_normal _ _ _ tt) by reflexivity.
  change (after (wait_completes operation_aborted (set_input_dev None s)))
    with (set_pending_wait false (set_input_dev None s)).
  change (trace (wait_completes operation_aborted (set_input_dev None s)))
    with (@nil event).
  rewrite prefix_nil, bind_gets. cbn [pending_read set_pending_wait set_input_dev].
  rewrite R. unfold prefix, ret. cbn [res after trace]. now rewrite app_nil_r.
Qed.

(** C9. The code handles the read it cancelled as a failed read.  A sensor is
    destroyed while its read is outstanding: the destructor closes the
    descriptor, the reactor completes the read with [operation_aborted], and
    the handler, whose guard is on [bad_file_descriptor], takes the failure
    branch: it writes the message, counts one more error, publishes the
    forced 0 when that is the tenth, closes and opens the device again and,
    given a descriptor above 0, arms the timer, all after the destructor has
    removed the interfaces. *)
Theorem cancelled_read_is_handled_as_a_failure (stof : string -> stof_result)
    (fd : Z) (s : ADCSensor) :
  pending_read s = true ->
  pending_wait s = false ->
  err_count s <> INT_MAX ->
  let r := teardown stof fd s in
  res r = Normal tt
  /\ trace r =
     trace (destructor s)
     ++ cerr (Failure_to_read_sensor (name s) (path s) operation_aborted)
        :: forced (counted s) ++ reschedule fd s
  /\ err_count (after r) = err_count s + 1
  /\ input_dev (after r) = (if fd <=? 0 then None else Some fd)
  /\ pending_wait (after r) = (0 <? fd)
  /\ pending_read (after r) = false.
Proof.
  intros R W L. cbv zeta. unfold teardown.
  rewrite (bind_after_normal _ _ _ tt) by (rewrite destructor_run; reflexivity).
  rewrite destructor_run. cbn [after trace].
  rewrite bind_gets. cbn [pending_wait set_input_dev]. rewrite W.
  rewrite bind_ret, bind_gets. cbn [pending_read set_input_dev]. rewrite R.
  rewrite read_completes_run.
  rewrite (handle_response_read_failure stof operation_aborted fd _ eq_refl)
    by exact L.
  unfold prefix. cbn [res after trace].
  destruct (rescheduled_fields fd
              (warned (counted (delivered (cancelled_read fd) (set_input_dev None s)))))
    as (E & _ & P & Q).
  destruct (warned_fields
              (counted (delivered (cancelled_read fd) (set_input_dev None s))))
    as (E' & P' & Q').
  split; [reflexivity|]. split; [reflexivity|].
  split; [rewrite E, E'; reflexivity|].
  split; [unfold rescheduled; now destruct (fd <=? 0)|].
  split; [rewrite Q, Q'; cbn; rewrite W; apply orb_false_r|].
  rewrite P, P'. reflexivity.
Qed.

(** A new channel destroyed during its first read, and the same channel
    destroyed during the read that follows nine failed ones: the cancelled
    read is the tenth failure, and 0 is published on the interface the
    destructor has just removed. *)
Lemma cancelled_read_is_handled_as_a_failure_witness :
  let s := channel 1 in
  let s9 := after (poll Strtof.stof (failures 9) (channel 1)) in
  pending_read s = true /\ pending_wait s = false /\ err_count s <> INT_MAX
  /\ trace (teardown Strtof.stof 6 s) =
     [close; cancel; remove_interface None;
      remove_interface (Some Threshold_Critical);
      remove_interface (Some Sensor_Value);
      cerr (Failure_to_read_sensor (name s) (path s) operation_aborted);
      close; open (path s); assign 6; expires_from_now 500; async_wait]
  /\ err_count (after (teardown Strtof.stof 6 s)) = 1
  /\ pending_wait (after (teardown Strtof.stof 6 s)) = true
  /\ pending_read s9 = true /\ pending_wait s9 = false /\ err_count s9 = 9
  /\ bus (trace (teardown Strtof.stof 6 s9)) =
     [set_property Sensor_Value "Value" (Double (IEEE.double_of_Z 0));
      set_property Threshold_Critical "CriticalAlarmHigh" (Boolean false)]
  /\ err_count (after (teardown Strtof.stof 6 s9)) = 10.
Proof.
  cbv zeta.
  assert (R : pending_read (channel 1) = true) by computed.
  assert (W : pending_wait (channel 1) = false) by computed.
  assert (L : err_count (channel 1) <> INT_MAX) by computed.
  assert (R9 : pending_read (after (poll Strtof.stof (failures 9) (channel 1))) = true)
    by computed.
  assert (W9 : pending_wait (after (poll Strtof.stof (failures 9) (channel 1))) = false)
    by computed.
  assert (E9 : err_count (after (poll Strtof.stof (failures 9) (channel 1))) = 9)
    by computed.
  assert (L9 : err_count (after (poll Strtof.stof (failures 9) (channel 1))) <> INT_MAX)
    by (rewrite E9; discriminate).
  pose proof (cancelled_read_is_handled_as_a_failure Strtof.stof 6 _ R W L)
    as (_ & T & C & _ & Q & _).
  pose proof (cancelled_read_is_handled_as_a_failure Strtof.stof 6 _ R9 W9 L9)
    as (_ & T9 & C9 & _).
  split; [exact R|]. split; [exact W|]. split; [exact L|].
  split; [rewrite T; computed|]. split; [rewrite C; computed|].
  split; [rewrite Q; computed|].
  split; [exact R9|]. split; [exact W9|]. split; [exact E9|].
  split; [rewrite T9; computed|]. rewrite C9, E9. reflexivity.
Defined.

(** ** The error count *)

(** C4. After any cycles that returned and left a read outstanding (in
    particular after any number of consecutive failed cycles), a cycle whose
    line parses leaves the error count at 0. *)
Theorem success_resets_error_count (stof : string -> stof_result)
    (cs : list completion) (c : completion) (s : ADCSensor) (x : IEEE.float) :
  res (poll stof cs s) = Normal tt ->
  pending_read (after (poll stof cs s)) = true ->
  verdict_of stof (ec c) (delivered c (after (poll stof cs s))) = Sample x ->
  res (poll stof (cs ++ [c]) s) = Normal tt
  /\ err_count (after (poll stof (cs ++ [c]) s)) = 0.
Proof.
  intros R P V. rewrite poll_app, (bind_after_normal _ _ _ _ R).
  unfold prefix. cbn [res after trace poll].
  destruct (cycle_sample stof c _ x P V) as [R' E]. cbv zeta in *.
  rewrite (bind_after_normal _ _ _ _ R'). unfold prefix, ret.
  cbn [res after trace]. now split.
Qed.

(** Three failed reads, then the line 5000: the count goes from 3 to 0. *)
Lemma success_resets_error_count_witness :
  let s := after (poll Strtof.stof (failures 3) (channel 1)) in
  let c := mkCompletion (newline "5000") no_error 6 in
  err_count s = 3
  /\ res (poll Strtof.stof (failures 3) (channel 1)) = Normal tt
  /\ pending_read s = true
  /\ verdict_of Strtof.stof (ec c) (delivered c s) = Sample (IEEE.float_of_Z 5000)
  /\ res (poll Strtof.stof (failures 3 ++ [c]) (channel 1)) = Normal tt
  /\ err_count (after (poll Strtof.stof (failures 3 ++ [c]) (channel 1))) = 0.
Proof.
  cbv zeta. split; [vm_compute; reflexivity|].
  split; [vm_compute; reflexivity|]. split; [vm_compute; reflexivity|].
  split; [vm_compute; reflexivity|].
  apply (success_resets_error_count Strtof.stof (failures 3)
           (mkCompletion (newline "5000") no_error 6) (channel 1)
           (IEEE.float_of_Z 5000)); vm_compute; reflexivity.
Defined.

(** C2. In a streak of consecutive failed cycles that starts with the error
    count at 0 (a new sensor, or the cycle after a successful read), the
    [k]-th failure leaves the count at [k] and force-publishes the value 0
    exactly when [k = 10]; the streak as a whole has published 0 once if it
    reached 10 failures and never otherwise, however long it gets (the counter
    is an [int], so [k] is at most [INT_MAX]). *)
Theorem forced_zero_exactly_once (stof : string -> stof_result)
    (cs : list completion) (c : completion) (s : ADCSensor) :
  pending_read s = true ->
  err_count s = 0 ->
  Z.of_nat (List.length cs) + 1 <= INT_MAX ->
  streak stof cs s = true ->
  failed (verdict_of stof (ec c) (delivered c (after (poll stof cs s)))) = true ->
  0 < reopened c ->
  let k := Z.of_nat (List.length cs) + 1 in
  let before := poll stof cs s in
  let r := cycle stof c (after before) in
  res before = Normal tt
  /\ res r = Normal tt
  /\ err_count (after r) = k
  /\ published (trace r) = (if k =? 10 then [IEEE.double_of_Z 0] else [])
  /\ published (trace before ++ trace r)
     = (if 10 <=? k then [IEEE.double_of_Z 0] else []).
Proof.
  intros P E B S F O. cbv zeta.
  destruct (poll_streak stof cs s P) as (R & P' & E' & Pb); auto; try lia.
  cbv zeta in *. rewrite E in *. cbn [Z.add] in *.
  destruct (cycle_failed stof c _ P' F O) as (R' & _ & E'' & Pb'); [lia|].
  cbv zeta in *. rewrite E' in *.
  split; [exact R|]. split; [exact R'|]. split; [exact E''|].
  split; [exact Pb'|]. rewrite published_app, Pb, Pb'.
  unfold WARN_AFTER_ERROR_COUNT.
  destruct (Z.leb_spec 10 (Z.of_nat (List.length cs))),
    (Z.eqb_spec (Z.of_nat (List.length cs) + 1) 10),
    (Z.leb_spec 10 (Z.of_nat (List.length cs) + 1));
    try lia; reflexivity.
Qed.

(** The tenth failure of a new channel publishes 0, the ninth and the
    eleventh publish nothing; after twelve failures and the line 5000, the
    tenth failure of the new streak publishes 0 again. *)
Lemma forced_zero_exactly_once_witness :
  let c := mkCompletion EmptyString eof 6 in
  let failed_from s n := after (poll Strtof.stof (failures n) s) in
  let new := channel 1 in
  let recovered :=
    after (poll Strtof.stof
             (failures 12 ++ [mkCompletion (newline "5000") no_error 6]) new) in
  streak Strtof.stof (failures 10) new = true
  /\ published (trace (cycle Strtof.stof c (failed_from new 9%nat)))
     = [IEEE.double_of_Z 0]
  /\ published (trace (cycle Strtof.stof c (failed_from new 8%nat))) = []
  /\ published (trace (cycle Strtof.stof c (failed_from new 10%nat))) = []
  /\ published (trace (poll Strtof.stof (failures 10) new)
                ++ trace (cycle Strtof.stof c (failed_from new 10%nat)))
     = [IEEE.double_of_Z 0]
  /\ published (trace (cycle Strtof.stof c (failed_from recovered 9%nat)))
     = [IEEE.double_of_Z 0].
Proof.
  cbv zeta. split; [computed|].
  split; [|split; [|split; [|split]]];
    match goal with
    | |- published (trace (cycle _ ?c (after (poll _ ?cs ?s)))) = _ =>
        pose proof (forced_zero_exactly_once Strtof.stof cs c s) as H
    | |- published (trace (poll _ ?cs ?s) ++ trace (cycle _ ?c _)) = _ =>
        pose proof (forced_zero_exactly_once Strtof.stof cs c s) as H
    end;
    repeat match type of H with
           | ?A -> _ =>
               let P := fresh in assert (P : A) by computed; specialize (H P); clear P
           end;
    cbv zeta in H; destruct H as (_ & _ & _ & H1 & H2);
    vm_compute in H1, H2 |- *; first [exact H1 | exact H2].
Defined.

(** ** The value pipeline *)

(** C6. When the line of a cycle parses, the scaled value is handed to the
    publisher and evaluated against the thresholds exactly when it differs
    ([!=] on doubles) from the stored value, which is the value published
    last; when it is equal nothing is published, no threshold is evaluated
    and the stored value stays. *)
Theorem change_suppression (stof : string -> stof_result) (err : error_code)
    (fd : Z) (s : ADCSensor) (x : IEEE.float) :
  verdict_of stof err s = Sample x ->
  let r := handle_response stof err fd s in
  let nvalue := IEEE.double_of_float (scaled_sample x (scale_factor s)) in
  res r = Normal tt
  /\ (IEEE.ne nvalue (value s) = true ->
      bus (trace r) = publication s nvalue
      /\ published (trace r) = [nvalue]
      /\ value (after r) = nvalue)
  /\ (IEEE.ne nvalue (value s) = false ->
      bus (trace r) = []
      /\ published (trace r) = []
      /\ value (after r) = value s).
Proof.
  intro V. cbv zeta. rewrite (handle_response_sample _ _ _ _ _ V).
  fold (sample_value x s). cbn [res after trace].
  rewrite bus_app, published_app, bus_reschedule, published_reschedule, !app_nil_r.
  destruct (rescheduled_fields fd
              (set_err_count 0
                 (if IEEE.ne (sample_value x s) (value s)
                  then set_value (sample_value x s) (consumed s) else consumed s)))
    as (_ & -> & _).
  split; [reflexivity|].
  split; intro N; rewrite N; [rewrite bus_publication, published_publication|];
    repeat split.
Qed.

(** The line 4000 on a channel that holds 5 is published as 4; the same line
    again is not. *)
Lemma change_suppression_witness :
  let s := set_value (IEEE.double_of_Z 5) (channel_reading 1 (newline "4000")) in
  let s' := set_read_buf (newline "4000")
              (after (handle_response Strtof.stof no_error 6 s)) in
  verdict_of Strtof.stof no_error s = Sample (IEEE.float_of_Z 4000)
  /\ published (trace (handle_response Strtof.stof no_error 6 s))
     = [IEEE.double_of_Z 4]
  /\ verdict_of Strtof.stof no_error s' = Sample (IEEE.float_of_Z 4000)
  /\ bus (trace (handle_response Strtof.stof no_error 7 s')) = [].
Proof.
  cbv zeta.
  set (s := set_value (IEEE.double_of_Z 5) (channel_reading 1 (newline "4000"))).
  set (s' := set_read_buf (newline "4000")
               (after (handle_response Strtof.stof no_error 6 s))).
  assert (V : verdict_of Strtof.stof no_error s = Sample (IEEE.float_of_Z 4000))
    by computed.
  assert (V' : verdict_of Strtof.stof no_error s' = Sample (IEEE.float_of_Z 4000))
    by computed.
  split; [exact V|]. split; [|split; [exact V'|]].
  - destruct (change_suppression Strtof.stof no_error 6 s _ V) as (_ & H & _).
    destruct H as (_ & H & _); [computed|]. vm_compute in H |- *. exact H.
  - destruct (change_suppression Strtof.stof no_error 7 s' _ V') as (_ & _ & H).
    destruct H as (H & _); [computed|]. vm_compute in H |- *. exact H.
Defined.

(** C1, as it is stated, fails: the line 1234 on a channel of scale factor
    0.1 is published as a value that is not the exact quotient
    [(x / 1000) / scale_factor], nor that quotient computed on doubles, nor
    computed on floats, nor the double the expression
    [(nvalue / SENSOR_SCALE_FACTOR) / scale_factor] has before it is stored
    in the [float]. *)
Lemma transform_is_not_exact :
  let s := reading (newline "1234") (channel_with one_tenth) in
  let r := handle_response Strtof.stof no_error 6 s in
  let x := IEEE.float_of_Z 1234 in
  verdict_of Strtof.stof no_error s = Sample x
  /\ exists v,
       published (trace r) = [v]
       /\ IEEE.exact_product v unit_scale_constant (scale_factor s) x = false
       /\ IEEE.ne v (spec_transform x (scale_factor s)) = true
       /\ IEEE.ne v (IEEE.double_of_float (float_transform x (scale_factor s))) = true
       /\ IEEE.ne v (unrounded_quotient x (scale_factor s)) = true.
Proof.
  cbv zeta. split; [computed|].
  exists (IEEE.double_of_float (scaled_sample (IEEE.float_of_Z 1234) one_tenth)).
  repeat split; computed.
Qed.

(** C1, amended. When the line of a cycle parses to the [float] [x], every
    value the cycle hands to the publisher is the [float]
    [(x / 1000) / scale_factor] (the first division on floats, the second on
    doubles, the quotient rounded to a [float]) widened to a double, and the
    thresholds are evaluated against that same value. *)
Theorem published_value_is_rounded_transform (stof : string -> stof_result)
    (err : error_code) (fd : Z) (s : ADCSensor) (x : IEEE.float) :
  verdict_of stof err s = Sample x ->
  let r := handle_response stof err fd s in
  let v :=
    IEEE.double_of_float
      (IEEE.float_of_double
         (IEEE.ddiv (IEEE.double_of_float (IEEE.fdiv x (IEEE.float_of_Z 1000)))
                    (scale_factor s))) in
  res r = Normal tt
  /\ (forall w, In w (published (trace r)) -> w = v)
  /\ (bus (trace r) = []
      \/ bus (trace r) = set_property Sensor_Value "Value" (Double v) :: evaluation s v).
Proof.
  intro V. cbv zeta. rewrite (handle_response_sample _ _ _ _ _ V).
  unfold sample_value, scaled_sample, SENSOR_SCALE_FACTOR. cbn [res after trace].
  rewrite bus_app, published_app, bus_reschedule, published_reschedule, !app_nil_r.
  split; [reflexivity|].
  match goal with |- context [if ?c then _ else _] => destruct c end.
  - rewrite bus_publication, published_publication. split; [|now right].
    intros w [<-|[]]. reflexivity.
  - split; [intros w []|now left].
Qed.

(** The example of the spec: with scale factor 1 the line 5000 is published
    as 5.0, and the Critical-High threshold at 4.5 is asserted. *)
Lemma published_value_is_rounded_transform_witness :
  let s := channel_reading 1 (newline "5000") in
  let r := handle_response Strtof.stof no_error 6 s in
  verdict_of Strtof.stof no_error s = Sample (IEEE.float_of_Z 5000)
  /\ published (trace r) = [IEEE.double_of_Z 5]
  /\ (forall w, In w (published (trace r)) -> w = IEEE.double_of_Z 5)
  /\ bus (trace r) =
     [set_property Sensor_Value "Value" (Double (IEEE.double_of_Z 5));
      set_property Threshold_Critical "CriticalAlarmHigh" (Boolean true)].
Proof.
  cbv zeta. set (s := channel_reading 1 (newline "5000")).
  assert (V : verdict_of Strtof.stof no_error s = Sample (IEEE.float_of_Z 5000))
    by computed.
  destruct (published_value_is_rounded_transform Strtof.stof no_error 6 s _ V)
    as (_ & P & B).
  split; [exact V|]. split; [computed|]. split.
  - intros w I. rewrite (P w I). computed.
  - destruct B as [B|B]; [vm_compute in B; discriminate B|].
    rewrite B. computed.
Defined.

(** C5. The code does not absorb a sample that [std::stof] rejects as out of
    range: on the line 1e40 the exception leaves the handler, the error
    count is not incremented, the device is neither closed nor reopened, no
    timer is armed, and the poll loop ends there. *)
Theorem out_of_range_sample_escapes :
  let s := channel_reading 1 (newline "1e40") in
  let r := handle_response Strtof.stof no_error 6 s in
  let lines := [mkCompletion (newline "1e40") no_error 6;
                mkCompletion (newline "5000") no_error 6] in
  response s = "1e40"%string
  /\ Strtof.stof "1e40" = stof_out_of_range
  /\ res r = Throws out_of_range
  /\ trace r = []
  /\ err_count (after r) = err_count s
  /\ pending_read (after r) = false
  /\ pending_wait (after r) = false
  /\ res (poll Strtof.stof lines (channel 1)) = Throws out_of_range
  /\ published (trace (poll Strtof.stof lines (channel 1))) = [].
Proof. cbv zeta. repeat split; computed. Qed.

(** ** The stored value *)

(** C7, as it is stated, fails: the line inf leaves the stored value at
    plus infinity, which is neither a finite number nor the not-a-number
    sentinel; so does every line of a channel whose scale factor is 0. *)
Lemma value_can_be_infinite :
  let r := handle_response Strtof.stof no_error 6 (channel_reading 1 (newline "inf")) in
  let r' := handle_response Strtof.stof no_error 6 (channel_reading 0 (newline "5000")) in
  (res r = Normal tt
   /\ value (after r) = S754_infinity false
   /\ IEEE.is_finite (value (after r)) = false
   /\ IEEE.is_nan (value (after r)) = false)
  /\ (res r' = Normal tt
      /\ value (after r') = S754_infinity false).
Proof. cbv zeta. repeat split; computed. Qed.

(** C7, amended. The stored value of a channel is the not-a-number sentinel
    when the constructor returns and, after any cycles of the poll loop, it
    is the value handed to the publisher last (the sentinel when none was);
    what the bus sees is, for each published value in turn, the publish of
    that value followed by the evaluation of the thresholds against exactly
    that value, and nothing else. *)
Theorem value_is_last_published (stof : string -> stof_result)
    (Hw Hc : list Threshold -> bool) (path sensor_name : string)
    (ths : list Threshold) (scale : IEEE.double) (cfg : string) (fd : Z)
    (initialized : dbus_interface -> bool) (cs : list completion) :
  let born := after (constructor Hw Hc path sensor_name ths scale cfg fd initialized) in
  let r := poll stof cs born in
  value born = IEEE.quiet_NaN
  /\ value (after r) = last (published (trace r)) IEEE.quiet_NaN
  /\ bus (trace r) =
     flat_map (fun v => set_property Sensor_Value "Value" (Double v) :: evaluation born v)
              (published (trace r)).
Proof.
  cbv zeta.
  destruct (constructor_run Hw Hc path sensor_name ths scale cfg fd initialized)
    as [_ E]. cbv zeta in E.
  assert (N : value (after (constructor Hw Hc path sensor_name ths scale cfg fd
                              initialized)) = IEEE.quiet_NaN) by now rewrite E.
  destruct (poll_observed stof cs
              (after (constructor Hw Hc path sensor_name ths scale cfg fd initialized)))
    as (_ & B & U). cbv zeta in *.
  rewrite U, N, B. repeat split.
Qed.

(** C10, as it is stated, fails: on a new channel ten failed reads force the
    publish of 0, and the first line that parses, 0, is then equal to the
    stored value and is not published. *)
Lemma first_sample_can_be_suppressed :
  let before := poll Strtof.stof (failures 10) (channel 1) in
  let c := mkCompletion (newline "0") no_error 6 in
  let r := cycle Strtof.stof c (after before) in
  published (trace before) = [IEEE.double_of_Z 0]
  /\ verdict_of Strtof.stof (ec c) (delivered c (after before)) = Sample (S754_zero false)
  /\ res r = Normal tt
  /\ bus (trace r) = []
  /\ published (trace r) = [].
Proof. cbv zeta. repeat split; computed. Qed.

(** C10, amended.  While the stored value is still the not-a-number
    sentinel, which is so on a new channel as long as fewer than 10
    consecutive failures came first, the first line that parses is published
    and evaluated against the thresholds whatever its value; and a line whose
    scaled value is not-a-number is published and evaluated on every cycle it
    is read. *)
Theorem unset_value_and_nan_sample_are_published (stof : string -> stof_result) :
  (forall (cs : list completion) (c : completion) (s : ADCSensor) (x : IEEE.float),
      pending_read s = true ->
      err_count s = 0 ->
      IEEE.is_nan (value s) = true ->
      (List.length cs < 10)%nat ->
      streak stof cs s = true ->
      let s' := delivered c (after (poll stof cs s)) in
      verdict_of stof (ec c) s' = Sample x ->
      published (trace (poll stof cs s)) = []
      /\ bus (trace (cycle stof c (after (poll stof cs s))))
         = publication s (sample_value x s'))
  /\ (forall (err : error_code) (fd : Z) (s : ADCSensor) (x : IEEE.float),
         verdict_of stof err s = Sample x ->
         IEEE.is_nan (sample_value x s) = true ->
         bus (trace (handle_response stof err fd s)) = publication s (sample_value x s)
         /\ IEEE.is_nan (value (after (handle_response stof err fd s))) = true).
Proof.
  split.
  - intros cs c s x P E N L S s' V.
    destruct (poll_streak stof cs s P) as (_ & P' & _ & Pb); auto;
      try (rewrite E; unfold INT_MAX; lia).
    cbv zeta in *. rewrite E in Pb. cbn [Z.add] in Pb.
    assert (Pb' : published (trace (poll stof cs s)) = []).
    { rewrite Pb. unfold WARN_AFTER_ERROR_COUNT.
      destruct (Z.leb_spec 10 (Z.of_nat (List.length cs))); [lia|reflexivity]. }
    split; [exact Pb'|].
    destruct (poll_observed stof cs s) as (W & _ & U). cbv zeta in *.
    rewrite Pb' in U. cbn [last] in U.
    rewrite (cycle_reading _ _ _ P'). fold s'.
    rewrite (handle_response_sample _ _ _ _ _ V).
    assert (D : IEEE.ne (sample_value x s') (value s') = true).
    { apply nan_differs. right. subst s'. cbn [delivered value set_read_buf
        set_pending_read]. now rewrite U. }
    rewrite D. unfold cycle_of. cbn [res after trace].
    assert (Q : publication s' (sample_value x s') = publication s (sample_value x s')).
    { apply publication_same_wiring. eapply same_wiring_trans; [exact W|].
      subst s'. repeat split. }
    destruct (pending_wait _); cbn [trace];
      rewrite ?bus_app, bus_publication, bus_reschedule, ?app_nil_r, Q;
      reflexivity.
  - intros err fd s x V N. rewrite (handle_response_sample _ _ _ _ _ V).
    rewrite (nan_differs _ _ (or_introl N)). cbn [res after trace].
    rewrite bus_app, bus_publication, bus_reschedule, app_nil_r.
    split; [reflexivity|].
    destruct (rescheduled_fields fd
                (set_err_count 0 (set_value (sample_value x s) (consumed s))))
      as (_ & -> & _). exact N.
Qed.

(** A new channel that failed nine times publishes its first sample, 0; and
    the line nan is published on each of two cycles in a row. *)
Lemma unset_value_and_nan_sample_are_published_witness :
  let c := mkCompletion (newline "0") no_error 6 in
  let n := mkCompletion (newline "nan") no_error 6 in
  (streak Strtof.stof (failures 9) (channel 1) = true
   /\ published (trace (cycle Strtof.stof c
                          (after (poll Strtof.stof (failures 9) (channel 1)))))
      = [S754_zero false])
  /\ published (trace (poll Strtof.stof [n; n] (channel 1))) = [S754_nan; S754_nan]
  /\ bus (trace (handle_response Strtof.stof no_error 6
                   (set_value S754_nan (channel_reading 1 (newline "nan")))))
     = publication (channel 1) S754_nan.
Proof.
  cbv zeta.
  destruct (unset_value_and_nan_sample_are_published Strtof.stof) as [A B].
  split; [split; [computed|]|split; [computed|]].
  - assert (L : (List.length (failures 9) < 10)%nat)
      by (cbn [failures repeat List.length]; lia).
    assert (P : pending_read (channel 1) = true) by computed.
    assert (E : err_count (channel 1) = 0) by computed.
    assert (N : IEEE.is_nan (value (channel 1)) = true) by computed.
    assert (S : streak Strtof.stof (failures 9) (channel 1) = true) by computed.
    assert (V : verdict_of Strtof.stof no_error
                  (delivered (mkCompletion (newline "0") no_error 6)
                     (after (poll Strtof.stof (failures 9) (channel 1))))
                = Sample (S754_zero false)) by computed.
    pose proof (proj2 (A (failures 9) (mkCompletion (newline "0") no_error 6)
                         (channel 1) (S754_zero false) P E N L S V)) as H.
    apply (f_equal published) in H. vm_compute in H |- *. exact H.
  - assert (V : verdict_of Strtof.stof no_error
                  (set_value S754_nan (channel_reading 1 (newline "nan")))
                = Sample S754_nan) by computed.
    assert (N : IEEE.is_nan
                  (sample_value S754_nan
                     (set_value S754_nan (channel_reading 1 (newline "nan")))) = true)
      by computed.
    pose proof (proj1 (B no_error 6 _ _ V N)) as H. vm_compute in H |- *. exact H.
Defined.

(** ** The end of a cycle *)

Lemma poll_idle (stof : string -> stof_result) (cs : list completion) (s : ADCSensor) :
  pending_read s = false -> poll stof cs s = mkRun (Normal tt) s [].
Proof.
  intro P. induction cs as [|c cs IH]; [reflexivity|].
  cbn [poll]. unfold bind. rewrite (cycle_idle _ _ _ P). cbn [res after trace].
  now rewrite IH.
Qed.

(** Every handler that returns from a completed read other than the one of
    the closed handle ends by closing the device and opening it again; a
    descriptor above 0 is assigned and the timer armed for 500 ms, with any
    other result of [open] nothing is armed. *)
Lemma handler_ends_with_reschedule (stof : string -> stof_result)
    (err : error_code) (fd : Z) (s : ADCSensor) :
  let r := handle_response stof err fd s in
  res r = Normal tt ->
  verdict_of stof err s <> Cancelled ->
  (exists t, trace r = t ++ reschedule fd s)
  /\ input_dev (after r) = (if fd <=? 0 then None else Some fd)
  /\ pending_wait (after r) = ((0 <? fd) || pending_wait s).
Proof.
  assert (R : forall u, pending_wait u = pending_wait s ->
                input_dev (rescheduled fd u) = (if fd <=? 0 then None else Some fd)
                /\ pending_wait (rescheduled fd u) = ((0 <? fd) || pending_wait s)).
  { intros u E. unfold rescheduled.
    destruct (Z.leb_spec fd 0), (Z.ltb_spec 0 fd); try lia; now split. }
  assert (W : forall u, pending_wait (warned u) = pending_wait u)
    by (intro u; apply warned_fields).
  cbv zeta. destruct (verdict_of stof err s) as [|x| | |] eqn:V; intros N C.
  - contradiction.
  - rewrite (handle_response_sample _ _ _ _ _ V). cbn [res after trace].
    split; [eexists; reflexivity|]. apply R.
    now destruct (IEEE.ne (sample_value x s) (value s)).
  - destruct (Z.eq_dec (err_count s) INT_MAX) as [L|L].
    + rewrite (handle_response_read_overflow _ _ _ _ V L) in N. discriminate.
    + rewrite (handle_response_read_failure _ _ _ _ V L). cbn [res after trace].
      split; [now exists (cerr (Failure_to_read_sensor (name s) (path s) err)
                            :: forced (counted s))|].
      apply R. now rewrite W.
  - destruct (Z.eq_dec (err_count s) INT_MAX) as [L|L].
    + rewrite (handle_response_parse_overflow _ _ _ _ V L) in N. discriminate.
    + rewrite (handle_response_parse_failure _ _ _ _ V L). cbn [res after trace].
      split; [eexists; reflexivity|]. apply R. now rewrite W.
  - rewrite (handle_response_range_failure _ _ _ _ V) in N. discriminate.
Qed.

(** C8. The code stops a channel whose reopen succeeded with descriptor 0.
    A channel that holds descriptor 0 (the lowest one was free when it was
    constructed) reads its first line; the handler closes the device and
    opens it again, [open] returns 0 again, the handler takes it for a
    failure, assigns nothing, arms no timer, and the channel is never polled
    again.  (With a descriptor above 0 the same cycle arms the timer for 500
    ms and the next read follows.) *)
Theorem descriptor_zero_stops_the_channel :
  let new := channel_on 0 (IEEE.double_of_Z 1) in
  let s := reading (newline "5000") new in
  let r := handle_response Strtof.stof no_error 0 s in
  let r6 := cycle Strtof.stof (mkCompletion (newline "5000") no_error 6) new in
  input_dev new = Some 0
  /\ res r = Normal tt
  /\ trace r = publication s (IEEE.double_of_Z 5) ++ [close; open (path s)]
  /\ input_dev (after r) = None
  /\ pending_wait (after r) = false
  /\ pending_read (after r) = false
  /\ (forall cs, poll Strtof.stof cs (after r) = mkRun (Normal tt) (after r) [])
  /\ trace r6 = publication s (IEEE.double_of_Z 5)
                ++ [close; open (path s); assign 6; expires_from_now 500;
                    async_wait; async_read_until]
  /\ pending_read (after r6) = true.
Proof.
  cbv zeta. split; [computed|]. split; [computed|]. split; [computed|].
  split; [computed|]. split; [computed|]. split; [computed|].
  split; [|split; computed].
  intro cs. apply poll_idle. computed.
Qed.

(** * Further properties of the sensor *)

(** ** The name *)

Lemma replace_spaces_lacks (s : string) : lacks " " (replace_spaces s) = true.
Proof.
  induction s as [|c s IH]; [reflexivity|]. cbn [replace_spaces lacks].
  rewrite IH, andb_true_r. destruct (Ascii.eqb c " ") eqn:E; [reflexivity|].
  now rewrite E.
Qed.

Lemma replace_spaces_length (s : string) :
  String.length (replace_spaces s) = String.length s.
Proof. induction s as [|c s IH]; [reflexivity|]. cbn. now rewrite IH. Qed.

Lemma replace_spaces_spaceless (s : string) :
  lacks " " s = true -> replace_spaces s = s.
Proof.
  induction s as [|c s IH]; [reflexivity|]. cbn [lacks replace_spaces].
  intro H. apply andb_prop in H as [H1 H2]. rewrite (IH H2).
  destruct (Ascii.eqb c " "); [discriminate|reflexivity].
Qed.

Lemma replace_spaces_get (s : string) (i : nat) :
  String.get i (replace_spaces s) =
  match String.get i s with
  | Some c => Some (if Ascii.eqb c " " then "_"%char else c)
  | None => None
  end.
Proof.
  revert i. induction s as [|c s IH]; intro i; [reflexivity|].
  destruct i as [|i]; [reflexivity|]. cbn [replace_spaces String.get]. apply IH.
Qed.

(** X1. The name of a sensor is the configured name with every space turned
    into an underscore and every other character kept: at every index the
    name holds an underscore where the configured name holds a space and the
    character of the configured name elsewhere, and it ends where the
    configured name ends.  So it has no space and the length of the
    configured name, and it is the configured name exactly when that has no
    space.  The object path of the value interface, the first call the
    constructor makes, ends with it. *)
Theorem name_has_no_space (Hw Hc : list Threshold -> bool) (path sensor_name : string)
    (ths : list Threshold) (scale : IEEE.double) (cfg : string) (fd : Z)
    (initialized : dbus_interface -> bool) :
  let born := constructor Hw Hc path sensor_name ths scale cfg fd initialized in
  (forall i : nat,
     String.get i (name (after born)) =
     match String.get i sensor_name with
     | Some c => Some (if Ascii.eqb c " " then "_"%char else c)
     | None => None
     end)
  /\ lacks " " (name (after born)) = true
  /\ String.length (name (after born)) = String.length sensor_name
  /\ replace_spaces (name (after born)) = name (after born)
  /\ (if lacks " " sensor_name
      then name (after born) = sensor_name
      else name (after born) <> sensor_name)
  /\ hd_error (trace born)
     = Some (add_interface Sensor_Value
               ("/xyz/openbmc_project/sensors/voltage/" ++ name (after born))).
Proof.
  cbv zeta.
  destruct (constructor_run Hw Hc path sensor_name ths scale cfg fd initialized)
    as [_ E]. cbv zeta in E. rewrite E. cbn [name].
  split; [intro i; apply replace_spaces_get|].
  split; [apply replace_spaces_lacks|]. split; [apply replace_spaces_length|].
  split; [apply replace_spaces_spaceless, replace_spaces_lacks|]. split.
  - destruct (lacks " " sensor_name) eqn:L; [now apply replace_spaces_spaceless|].
    intro H. rewrite <- H, replace_spaces_lacks in L. discriminate.
  - unfold constructor. rewrite bind_emit. reflexivity.
Qed.

(** ** What a cycle leaves alone *)

Lemma handler_keeps (P : ADCSensor -> Prop) (stof : string -> stof_result)
    (err : error_code) (fd : Z) (s : ADCSensor) :
  (forall b u, P u -> P (set_read_buf b u)) ->
  (forall v u, P u -> P (set_value v u)) ->
  (forall n u, P u -> P (set_err_count n u)) ->
  (forall d u, P u -> P (set_input_dev d u)) ->
  (forall b u, P u -> P (set_pending_wait b u)) ->
  P s -> P (after (handle_response stof err fd s)).
Proof.
  intros Hb Hv Hn Hd Hw H.
  assert (R : forall u, P u -> P (rescheduled fd u)).
  { intros u Hu. unfold rescheduled. destruct (fd <=? 0); auto. }
  assert (W : forall u, P u -> P (warned u)).
  { intros u Hu. unfold warned. destruct (warns u); auto. }
  assert (C : P (consumed s)) by (unfold consumed; auto).
  destruct (verdict_of stof err s) as [|x| | |] eqn:V.
  - now rewrite (handle_response_cancelled _ _ _ _ V).
  - rewrite (handle_response_sample _ _ _ _ _ V). cbn [after].
    destruct (IEEE.ne (sample_value x s) (value s)); auto.
  - destruct (Z.eq_dec (err_count s) INT_MAX) as [L|L].
    + now rewrite (handle_response_read_overflow _ _ _ _ V L).
    + rewrite (handle_response_read_failure _ _ _ _ V L). cbn [after].
      unfold counted. auto.
  - destruct (Z.eq_dec (err_count s) INT_MAX) as [L|L].
    + now rewrite (handle_response_parse_overflow _ _ _ _ V L).
    + rewrite (handle_response_parse_failure _ _ _ _ V L). cbn [after].
      unfold counted. auto.
  - now rewrite (handle_response_range_failure _ _ _ _ V).
Qed.

Lemma cycle_keeps (P : ADCSensor -> Prop) (stof : string -> stof_result)
    (c : completion) (s : ADCSensor) :
  (forall b u, P u -> P (set_read_buf b u)) ->
  (forall v u, P u -> P (set_value v u)) ->
  (forall n u, P u -> P (set_err_count n u)) ->
  (forall d u, P u -> P (set_input_dev d u)) ->
  (forall b u, P u -> P (set_pending_wait b u)) ->
  (forall b u, P u -> P (set_pending_read b u)) ->
  P s -> P (after (cycle stof c s)).
Proof.
  intros Hb Hv Hn Hd Hw Hr H. destruct (pending_read s) eqn:E.
  - rewrite (cycle_reading _ _ _ E).
    assert (A : P (after (handle_response stof (ec c) (reopened c) (delivered c s))))
      by (apply handler_keeps; auto; unfold delivered; auto).
    unfold cycle_of.
    destruct (res (handle_response stof (ec c) (reopened c) (delivered c s)));
      cbn [after]; auto.
    destruct (pending_wait _); cbn [after]; auto.
  - now rewrite (cycle_idle _ _ _ E).
Qed.

Lemma poll_keeps (P : ADCSensor -> Prop) (stof : string -> stof_result)
    (cs : list completion) (s : ADCSensor) :
  (forall b u, P u -> P (set_read_buf b u)) ->
  (forall v u, P u -> P (set_value v u)) ->
  (forall n u, P u -> P (set_err_count n u)) ->
  (forall d u, P u -> P (set_input_dev d u)) ->
  (forall b u, P u -> P (set_pending_wait b u)) ->
  (forall b u, P u -> P (set_pending_read b u)) ->
  P s -> P (after (poll stof cs s)).
Proof.
  intros Hb Hv Hn Hd Hw Hr. revert s. induction cs as [|c cs IH]; intros s H; [exact H|].
  cbn [poll]. unfold bind.
  assert (A : P (after (cycle stof c s))) by now apply cycle_keeps.
  destruct (res (cycle stof c s)); cbn [after]; auto.
Qed.

(** X2. The poll loop never touches the configuration of a sensor: whatever
    the reads deliver, the path, the configuration, the name, the thresholds
    with their trip values, the scale factor, the two threshold interfaces
    and the display bounds are after the cycles what they were before. *)
Theorem poll_keeps_configuration (stof : string -> stof_result)
    (cs : list completion) (s : ADCSensor) :
  same_configuration s (after (poll stof cs s)).
Proof.
  apply (poll_keeps (same_configuration s)); try (intros ? u H; exact H).
  repeat split.
Qed.

(** ** The stream buffer *)

Lemma getline_line (text rest : string) :
  lacks nl text = true -> getline (text ++ String nl rest) = (text, rest).
Proof.
  induction text as [|c text IH]; intro H.
  - cbn [append getline]. now rewrite Ascii.eqb_refl.
  - cbn [lacks] in H. apply andb_prop in H as [H1 H2].
    cbn [append getline]. apply negb_true_iff in H1. rewrite H1, (IH H2). reflexivity.
Qed.

Lemma handler_read_buf (stof : string -> stof_result) (err : error_code) (fd : Z)
    (s : ADCSensor) :
  read_buf (after (handle_response stof err fd s)) =
  if negb (error_eqb err bad_file_descriptor) && error_not err
  then snd (getline (read_buf s)) else read_buf s.
Proof.
  assert (R : forall u, read_buf (rescheduled fd u) = read_buf u).
  { intro u. unfold rescheduled. now destruct (fd <=? 0). }
  assert (W : forall u, read_buf (warned u) = read_buf u).
  { intro u. unfold warned. now destruct (warns u). }
  destruct (verdict_of stof err s) as [|x| | |] eqn:V; revert V; unfold verdict_of;
    destruct (error_eqb err bad_file_descriptor) eqn:B; try discriminate;
    destruct (error_not err) eqn:N; try discriminate; intro V;
    try (destruct (stof (response s)); discriminate);
    cbn [negb andb];
    assert (V' : verdict_of stof err s = _)
      by (unfold verdict_of; rewrite B, ?N; try exact V; reflexivity).
  - now rewrite (handle_response_cancelled _ _ _ _ V').
  - now rewrite (handle_response_cancelled _ _ _ _ V').
  - rewrite (handle_response_sample _ _ _ _ _ V'). cbn [after]. rewrite R.
    now destruct (IEEE.ne (sample_value x s) (value s)).
  - destruct (Z.eq_dec (err_count s) INT_MAX) as [L|L].
    + now rewrite (handle_response_read_overflow _ _ _ _ V' L).
    + rewrite (handle_response_read_failure _ _ _ _ V' L). cbn [after].
      now rewrite R, W.
  - destruct (Z.eq_dec (err_count s) INT_MAX) as [L|L].
    + now rewrite (handle_response_parse_overflow _ _ _ _ V' L).
    + rewrite (handle_response_parse_failure _ _ _ _ V' L). cbn [after].
      now rewrite R, W.
  - now rewrite (handle_response_range_failure _ _ _ _ V').
Qed.

(** X3. A read that completes without error takes exactly one line out of
    the stream buffer and parses that line.  When the buffer holds a text
    without newline, a newline and a rest, the rest, further lines included,
    stays in the buffer for the next cycle, and the text is what [std::stof]
    is given: the run of the handler does not depend on what [std::stof]
    makes of any other text, and what it makes of this one decides the cycle
    (a value: the count is 0 and the scaled value is published if it
    differs; [invalid_argument]: one more error is counted; [out_of_range]:
    the exception leaves the handler). *)
Theorem handler_takes_one_line (stof : string -> stof_result) (err : error_code)
    (fd : Z) (s : ADCSensor) (text rest : string) :
  read_buf s = (text ++ String nl rest)%string ->
  lacks nl text = true ->
  error_not err = true ->
  let h := handle_response stof err fd s in
  response s = text
  /\ read_buf (after h) = rest
  /\ (forall stof' : string -> stof_result,
        stof' text = stof text -> handle_response stof' err fd s = h)
  /\ match stof text with
     | stof_value x =>
         res h = Normal tt
         /\ err_count (after h) = 0
         /\ published (trace h) =
            (if IEEE.ne (sample_value x s) (value s) then [sample_value x s] else [])
     | stof_invalid_argument =>
         if err_count s =? INT_MAX then res h = Undefined
         else res h = Normal tt /\ err_count (after h) = err_count s + 1
     | stof_out_of_range => res h = Throws out_of_range /\ trace h = []
     end.
Proof.
  intros B L N. cbv zeta.
  assert (E : error_eqb err bad_file_descriptor = false).
  { unfold error_eqb, error_not in *. apply Z.eqb_eq in N. rewrite N. reflexivity. }
  assert (T : response s = text).
  { unfold response. now rewrite B, (getline_line _ _ L). }
  assert (V : forall f : string -> stof_result,
             verdict_of f err s =
             match f text with
             | stof_value x => Sample x
             | stof_invalid_argument => ParseFailure
             | stof_out_of_range => RangeFailure
             end).
  { intro f. unfold verdict_of. now rewrite E, N, T. }
  split; [exact T|]. split.
  { rewrite handler_read_buf, N, E, B, (getline_line _ _ L). reflexivity. }
  split.
  - intros stof' Q. pose proof (V stof') as V'. pose proof (V stof) as V0.
    rewrite Q in V'. destruct (stof text) as [x| |].
    + now rewrite (handle_response_sample _ _ _ _ _ V'),
        (handle_response_sample _ _ _ _ _ V0).
    + destruct (Z.eq_dec (err_count s) INT_MAX) as [M|M].
      * now rewrite (handle_response_parse_overflow _ _ _ _ V' M),
          (handle_response_parse_overflow _ _ _ _ V0 M).
      * now rewrite (handle_response_parse_failure _ _ _ _ V' M),
          (handle_response_parse_failure _ _ _ _ V0 M).
    + now rewrite (handle_response_range_failure _ _ _ _ V'),
        (handle_response_range_failure _ _ _ _ V0).
  - pose proof (V stof) as V0. destruct (stof text) as [x| |].
    + rewrite (handle_response_sample _ _ _ _ _ V0). cbn [res after trace].
      split; [reflexivity|]. split.
      * destruct (rescheduled_fields fd
                    (set_err_count 0
                       (if IEEE.ne (sample_value x s) (value s)
                        then set_value (sample_value x s) (consumed s)
                        else consumed s))) as [C _].
        rewrite C. reflexivity.
      * rewrite published_app, published_reschedule, app_nil_r.
        destruct (IEEE.ne (sample_value x s) (value s));
          [apply published_publication|reflexivity].
    + destruct (Z.eqb_spec (err_count s) INT_MAX) as [M|M].
      * now rewrite (handle_response_parse_overflow _ _ _ _ V0 M).
      * rewrite (handle_response_parse_failure _ _ _ _ V0 M). cbn [res after].
        split; [reflexivity|].
        destruct (rescheduled_fields fd (warned (counted (consumed s)))) as [C _].
        destruct (warned_fields (counted (consumed s))) as [C' _].
        rewrite C, C'. reflexivity.
    + rewrite (handle_response_range_failure _ _ _ _ V0). now split.
Qed.

(** Two lines read at once: 5000 is parsed and published as 5, 4000 waits in
    the buffer. *)
Lemma handler_takes_one_line_witness :
  let s := reading (newline "5000" ++ newline "4000") (channel 1) in
  let h := handle_response Strtof.stof no_error 6 s in
  read_buf s = ("5000" ++ String nl (newline "4000"))%string
  /\ lacks nl "5000" = true
  /\ error_not no_error = true
  /\ response s = "5000"%string
  /\ read_buf (after h) = newline "4000"
  /\ Strtof.stof "5000" = stof_value (IEEE.float_of_Z 5000)
  /\ published (trace h) = [IEEE.double_of_Z 5]
  /\ err_count (after h) = 0.
Proof.
  cbv zeta.
  assert (B : read_buf (reading (newline "5000" ++ newline "4000") (channel 1))
              = ("5000" ++ String nl (newline "4000"))%string) by computed.
  assert (L : lacks nl "5000" = true) by computed.
  assert (N : error_not no_error = true) by computed.
  assert (P : Strtof.stof "5000" = stof_value (IEEE.float_of_Z 5000)) by computed.
  destruct (handler_takes_one_line Strtof.stof no_error 6 _ _ _ B L N)
    as (T & R & _ & H).
  rewrite P in H. destruct H as (_ & C & U).
  split; [exact B|]. split; [exact L|]. split; [exact N|].
  split; [exact T|]. split; [exact R|]. split; [exact P|].
  split; [rewrite U; computed|exact C].
Defined.

(** X4. A read that fails takes nothing out of the stream buffer: the bytes
    it delivered stay there, and the line of the next cycle starts with them. *)
Theorem failed_read_keeps_its_bytes (stof : string -> stof_result)
    (c1 c2 : completion) (s : ADCSensor) :
  pending_read s = true ->
  error_not (ec c1) = false ->
  let s1 := after (cycle stof c1 s) in
  read_buf s1 = (read_buf s ++ bytes c1)%string
  /\ response (delivered c2 s1)
     = fst (getline ((read_buf s ++ bytes c1) ++ bytes c2)%string).
Proof.
  intros P N. cbv zeta.
  assert (E : read_buf (after (cycle stof c1 s)) = (read_buf s ++ bytes c1)%string).
  { rewrite (cycle_reading _ _ _ P).
    pose proof (handler_read_buf stof (ec c1) (reopened c1) (delivered c1 s)) as H.
    rewrite N, andb_false_r in H. cbn [delivered read_buf set_read_buf] in H.
    unfold cycle_of.
    destruct (res (handle_response stof (ec c1) (reopened c1) (delivered c1 s)));
      cbn [after]; auto.
    destruct (pending_wait _); cbn [after read_buf set_pending_read set_pending_wait];
      auto. }
  split; [exact E|]. unfold response, delivered. cbn [read_buf set_read_buf].
  now rewrite E.
Qed.

(** A read that ends at end of file after the bytes 12, then the bytes 34
    and a newline: the sample parsed is 1234. *)
Lemma failed_read_keeps_its_bytes_witness :
  let c1 := mkCompletion "12" eof 6 in
  let c2 := mkCompletion (newline "34") no_error 6 in
  let s1 := after (cycle Strtof.stof c1 (channel 1)) in
  pending_read (channel 1) = true
  /\ error_not (ec c1) = false
  /\ read_buf s1 = "12"%string
  /\ response (delivered c2 s1) = "1234"%string
  /\ verdict_of Strtof.stof (ec c2) (delivered c2 s1) = Sample (IEEE.float_of_Z 1234).
Proof.
  cbv zeta.
  assert (P : pending_read (channel 1) = true) by computed.
  assert (N : error_not (ec (mkCompletion "12" eof 6)) = false) by computed.
  destruct (failed_read_keeps_its_bytes Strtof.stof (mkCompletion "12" eof 6)
              (mkCompletion (newline "34") no_error 6) (channel 1) P N) as [E R].
  split; [exact P|]. split; [exact N|]. split; [rewrite E; computed|].
  split; [rewrite R; computed|]. computed.
Defined.

(** ** The error count *)

Lemma handler_err_count (stof : string -> stof_result) (err : error_code) (fd : Z)
    (s : ADCSensor) :
  let n := err_count (after (handle_response stof err fd s)) in
  n = err_count s \/ n = 0 \/ n = err_count s + 1.
Proof.
  assert (R : forall u, err_count (rescheduled fd u) = err_count u)
    by (intro u; apply rescheduled_fields).
  assert (W : forall u, err_count (warned u) = err_count u)
    by (intro u; apply warned_fields).
  cbv zeta. destruct (verdict_of stof err s) as [|x| | |] eqn:V.
  - rewrite (handle_response_cancelled _ _ _ _ V). now left.
  - rewrite (handle_response_sample _ _ _ _ _ V). cbn [after]. rewrite R.
    right. now left.
  - destruct (Z.eq_dec (err_count s) INT_MAX) as [L|L].
    + rewrite (handle_response_read_overflow _ _ _ _ V L). now left.
    + rewrite (handle_response_read_failure _ _ _ _ V L). cbn [after].
      rewrite R, W. right. now right.
  - destruct (Z.eq_dec (err_count s) INT_MAX) as [L|L].
    + rewrite (handle_response_parse_overflow _ _ _ _ V L). now left.
    + rewrite (handle_response_parse_failure _ _ _ _ V L). cbn [after].
      rewrite R, W. right. now right.
  - rewrite (handle_response_range_failure _ _ _ _ V). now left.
Qed.

Lemma handler_defined (stof : string -> stof_result) (err : error_code) (fd : Z)
    (s : ADCSensor) :
  err_count s <> INT_MAX -> res (handle_response stof err fd s) <> Undefined.
Proof.
  intro L. destruct (verdict_of stof err s) as [|x| | |] eqn:V.
  - now rewrite (handle_response_cancelled _ _ _ _ V).
  - now rewrite (handle_response_sample _ _ _ _ _ V).
  - now rewrite (handle_response_read_failure _ _ _ _ V L).
  - now rewrite (handle_response_parse_failure _ _ _ _ V L).
  - now rewrite (handle_response_range_failure _ _ _ _ V).
Qed.

(** X5. While the error count cannot pass [INT_MAX], it is never negative
    and never above the number of cycles run: from a sensor whose count is
    not negative (the constructor sets it to 0) and, with the number of
    cycles added, at most [INT_MAX], the cycles never overflow the count, and
    they leave a count between 0 and the count before plus their number. *)
Theorem error_count_is_bounded (stof : string -> stof_result)
    (cs : list completion) (s : ADCSensor) :
  0 <= err_count s ->
  err_count s + Z.of_nat (List.length cs) <= INT_MAX ->
  res (poll stof cs s) <> Undefined
  /\ 0 <= err_count (after (poll stof cs s)) <= err_count s + Z.of_nat (List.length cs).
Proof.
  revert s. induction cs as [|c cs IH]; intros s H B.
  - cbn. split; [discriminate|lia].
  - cbn [List.length] in B. rewrite Nat2Z.inj_succ in B.
    assert (C : res (cycle stof c s) <> Undefined
                /\ 0 <= err_count (after (cycle stof c s)) <= err_count s + 1).
    { destruct (pending_read s) eqn:P.
      - rewrite (cycle_reading _ _ _ P).
        pose proof (handler_err_count stof (ec c) (reopened c) (delivered c s)) as E.
        pose proof (handler_defined stof (ec c) (reopened c) (delivered c s)) as D.
        cbv zeta in E. change (err_count (delivered c s)) with (err_count s) in E, D.
        assert (L : err_count s <> INT_MAX) by lia. specialize (D L).
        unfold cycle_of.
        destruct (res (handle_response stof (ec c) (reopened c) (delivered c s)));
          cbn [res after]; [|split; [discriminate|lia]|contradiction].
        destruct (pending_wait _);
          cbn [res after err_count set_pending_read set_pending_wait];
          (split; [discriminate|lia]).
      - rewrite (cycle_idle _ _ _ P). cbn [res after]. split; [discriminate|lia]. }
    destruct C as [D C].
    cbn [poll List.length]. rewrite Nat2Z.inj_succ. unfold bind.
    destruct (res (cycle stof c s)); cbn [res after];
      [|split; [discriminate|lia]|contradiction].
    destruct (IH (after (cycle stof c s)) (proj1 C)) as [D' C']; [lia|].
    split; [exact D'|lia].
Qed.

(** A new channel after twelve failed reads and one parsed line. *)
Lemma error_count_is_bounded_witness :
  let cs := failures 12 ++ [mkCompletion (newline "5000") no_error 6] in
  0 <= err_count (channel 1)
  /\ err_count (channel 1) + Z.of_nat (List.length cs) <= INT_MAX
  /\ res (poll Strtof.stof cs (channel 1)) <> Undefined
  /\ 0 <= err_count (after (poll Strtof.stof cs (channel 1)))
       <= err_count (channel 1) + Z.of_nat (List.length cs).
Proof.
  cbv zeta.
  assert (H : 0 <= err_count (channel 1)) by computed.
  assert (B : err_count (channel 1)
              + Z.of_nat (List.length
                            (failures 12 ++ [mkCompletion (newline "5000") no_error 6]))
              <= INT_MAX) by computed.
  split; [exact H|]. split; [exact B|].
  exact (error_count_is_bounded Strtof.stof _ (channel 1) H B).
Defined.

(** ** What a cycle publishes *)

(** X6. A cycle hands at most one value to the publisher: the scaled sample
    when its line parses (the error count is then 0, so the forced publish
    cannot follow it), the forced 0 when its read or its parse fails, and
    nothing when the handle was closed or the sample is out of range. *)
Theorem cycle_publishes_at_most_once (stof : string -> stof_result)
    (err : error_code) (fd : Z) (s : ADCSensor) :
  let p := published (trace (handle_response stof err fd s)) in
  match verdict_of stof err s with
  | Sample x => p = [] \/ p = [sample_value x s]
  | ReadFailure | ParseFailure => p = [] \/ p = [IEEE.double_of_Z 0]
  | Cancelled | RangeFailure => p = []
  end.
Proof.
  cbv zeta. destruct (verdict_of stof err s) as [|x| | |] eqn:V.
  - now rewrite (handle_response_cancelled _ _ _ _ V).
  - rewrite (handle_response_sample _ _ _ _ _ V). cbn [trace].
    rewrite published_app, published_reschedule, app_nil_r.
    destruct (IEEE.ne (sample_value x s) (value s));
      [right; apply published_publication|now left].
  - destruct (Z.eq_dec (err_count s) INT_MAX) as [L|L].
    + rewrite (handle_response_read_overflow _ _ _ _ V L). now left.
    + rewrite (handle_response_read_failure _ _ _ _ V L). cbn [trace published].
      rewrite published_app, published_reschedule, app_nil_r, published_forced.
      destruct (warns (counted s)); [now right|now left].
  - destruct (Z.eq_dec (err_count s) INT_MAX) as [L|L].
    + rewrite (handle_response_parse_overflow _ _ _ _ V L). now left.
    + rewrite (handle_response_parse_failure _ _ _ _ V L). cbn [trace].
      rewrite published_app, published_reschedule, app_nil_r, published_forced.
      destruct (warns (counted (consumed s))); [now right|now left].
  - now rewrite (handle_response_range_failure _ _ _ _ V).
Qed.

(** X7. The forced publish is not subject to change suppression and runs the
    threshold engine: the failure that brings the error count from 9 to 10
    publishes 0 and evaluates every threshold against 0 whatever the stored
    value is, also when it is 0 already, and leaves 0 stored. *)
Theorem forced_zero_is_evaluated (stof : string -> stof_result)
    (err : error_code) (fd : Z) (s : ADCSensor) :
  failed (verdict_of stof err s) = true ->
  err_count s = 9 ->
  bus (trace (handle_response stof err fd s))
  = set_property Sensor_Value "Value" (Double (IEEE.double_of_Z 0))
      :: map (alarm_event s (IEEE.double_of_Z 0)) (thresholds s)
  /\ value (after (handle_response stof err fd s)) = IEEE.double_of_Z 0.
Proof.
  intros F E.
  assert (L : err_count s <> INT_MAX) by (rewrite E; discriminate).
  assert (R : forall u, value (rescheduled fd u) = value u)
    by (intro u; apply rescheduled_fields).
  destruct (verdict_of stof err s) eqn:V; try discriminate.
  - rewrite (handle_response_read_failure _ _ _ _ V L). cbn [trace after].
    change (cerr ?m :: ?t) with ([cerr m] ++ t).
    rewrite !bus_app, bus_reschedule, app_nil_r, R. unfold forced, warned, warns, counted.
    cbn [err_count set_err_count]. rewrite E. cbn [bus filter on_bus app].
    change (size_t_of_int (9 + 1) =? WARN_AFTER_ERROR_COUNT) with true. cbv iota.
    rewrite bus_publication. split; reflexivity.
  - rewrite (handle_response_parse_failure _ _ _ _ V L). cbn [trace after].
    rewrite !bus_app, bus_reschedule, app_nil_r, R. unfold forced, warned, warns, counted.
    cbn [err_count set_err_count consumed set_read_buf]. rewrite E.
    change (size_t_of_int (9 + 1) =? WARN_AFTER_ERROR_COUNT) with true. cbv iota.
    rewrite bus_publication. split; reflexivity.
Qed.

(** The tenth failed read of a channel that holds 0 already, with a
    Warning-Low threshold at 1 and a Critical-High one at 4.5: 0 is published
    again, the low alarm is asserted and the high alarm cleared. *)
Lemma forced_zero_is_evaluated_witness :
  let s := set_value (IEEE.double_of_Z 0) (set_err_count 9 (reading "12" guarded_channel)) in
  failed (verdict_of Strtof.stof eof s) = true
  /\ err_count s = 9
  /\ bus (trace (handle_response Strtof.stof eof 6 s))
     = [set_property Sensor_Value "Value" (Double (IEEE.double_of_Z 0));
        set_property Threshold_Warning "WarningAlarmLow" (Boolean true);
        set_property Threshold_Critical "CriticalAlarmHigh" (Boolean false)].
Proof.
  cbv zeta.
  set (s := set_value (IEEE.double_of_Z 0)
              (set_err_count 9 (reading "12" guarded_channel))).
  assert (F : failed (verdict_of Strtof.stof eof s) = true) by computed.
  assert (E : err_count s = 9) by computed.
  split; [exact F|]. split; [exact E|].
  rewrite (proj1 (forced_zero_is_evaluated Strtof.stof eof 6 s F E)). computed.
Defined.

(** ** The comparisons of the threshold engine *)

Lemma SFltb_nan (x y : spec_float) :
  IEEE.is_nan x = true \/ IEEE.is_nan y = true -> SFltb x y = false.
Proof. intros [H|H]; destruct x, y; try discriminate; reflexivity. Qed.

(** X8. A value or a trip value that is not-a-number asserts nothing: while
    the stored value is not-a-number (a new sensor, or a sample that parsed to
    it), or for thresholds whose trip values are, no evaluation sends [true]
    to any alarm. *)
Theorem nan_asserts_no_alarm (s : ADCSensor) :
  IEEE.is_nan (value s) = true
  \/ (forall t, In t (thresholds s) -> IEEE.is_nan (thresholds.value t) = true) ->
  forall e, In e (trace (check_thresholds s)) -> asserts e = false.
Proof.
  intros H e I. rewrite check_thresholds_run in I. cbn [trace] in I.
  unfold evaluation in I. apply in_map_iff in I as (t & <- & I).
  assert (T : tripped (value s) t = false).
  { unfold tripped, IEEE.gt, IEEE.lt.
    destruct (thresholds.direction t); apply SFltb_nan;
      destruct H as [H|H]; auto. }
  unfold alarm_event. rewrite T. now destruct (interface_of s (thresholds.level t)).
Qed.

(** A channel whose alarm is asserted at 5 reads the line nan: the alarm is
    cleared. *)
Lemma nan_asserts_no_alarm_witness :
  let s := set_value IEEE.quiet_NaN guarded_channel in
  (IEEE.is_nan (value s) = true
   \/ (forall t, In t (thresholds s) -> IEEE.is_nan (thresholds.value t) = true))
  /\ (forall e, In e (trace (check_thresholds s)) -> asserts e = false)
  /\ bus (trace (handle_response Strtof.stof no_error 6
                   (set_value (IEEE.double_of_Z 5)
                      (reading (newline "nan") guarded_channel))))
     = [set_property Sensor_Value "Value" (Double IEEE.quiet_NaN);
        set_property Threshold_Warning "WarningAlarmLow" (Boolean false);
        set_property Threshold_Critical "CriticalAlarmHigh" (Boolean false)].
Proof.
  cbv zeta.
  assert (H : IEEE.is_nan (value (set_value IEEE.quiet_NaN guarded_channel)) = true
              \/ (forall t, In t (thresholds (set_value IEEE.quiet_NaN guarded_channel)) ->
                    IEEE.is_nan (thresholds.value t) = true))
    by (left; reflexivity).
  split; [exact H|]. split; [|computed].
  exact (nan_asserts_no_alarm _ H).
Defined.

Lemma SFcompare_antisym (x y : spec_float) :
  SFcompare y x = match SFcompare x y with Some c => Some (CompOpp c) | None => None end.
Proof.
  destruct x as [sx|sx| |sx mx ex], y as [sy|sy| |sy my ey]; cbn [SFcompare];
    try destruct sx; try destruct sy; try reflexivity;
    rewrite (Z.compare_antisym ex ey); destruct (ex ?= ey); cbn [CompOpp];
    try reflexivity; f_equal; rewrite ?CompOpp_involutive;
    first [apply (Pos.compare_cont_antisym my mx Eq)
          | symmetry; apply (Pos.compare_cont_antisym mx my Eq)].
Qed.

(** X9. A High threshold and a Low threshold with the same trip value are
    never asserted by the same evaluation: of the two booleans sent for them
    at most one is [true]. *)
Theorem high_and_low_exclude_each_other (s : ADCSensor) (i j : nat) (hi lo : Threshold)
    (e e' : event) :
  nth_error (thresholds s) i = Some hi ->
  nth_error (thresholds s) j = Some lo ->
  thresholds.direction hi = HIGH ->
  thresholds.direction lo = LOW ->
  thresholds.value hi = thresholds.value lo ->
  nth_error (trace (check_thresholds s)) i = Some e ->
  nth_error (trace (check_thresholds s)) j = Some e' ->
  asserts e && asserts e' = false.
Proof.
  intros Hi Hj Dh Dl T Ei Ej. rewrite check_thresholds_run in Ei, Ej.
  cbn [trace] in Ei, Ej. unfold evaluation in Ei, Ej.
  rewrite nth_error_map, Hi in Ei. rewrite nth_error_map, Hj in Ej.
  cbn [option_map] in Ei, Ej. injection Ei as <-. injection Ej as <-.
  unfold alarm_event, tripped. rewrite Dh, Dl, T. unfold IEEE.gt, IEEE.lt, SFltb.
  rewrite (SFcompare_antisym (value s) (thresholds.value lo)).
  destruct (interface_of s (thresholds.level hi)), (interface_of s (thresholds.level lo)),
    (SFcompare (value s) (thresholds.value lo)) as [[| |]|]; reflexivity.
Qed.

(** A Warning-High and a Warning-Low threshold both at 4.5, at the values 4,
    4.5 and 5. *)
Lemma high_and_low_exclude_each_other_witness :
  let hi := mkThreshold WARNING HIGH four_and_a_half in
  let lo := mkThreshold WARNING LOW four_and_a_half in
  let s v := set_value (IEEE.double_of_Z v) (set_thresholds [hi; lo] guarded_channel) in
  let both v := map asserts (trace (check_thresholds (s v))) in
  nth_error (thresholds (s 5)) 0 = Some hi
  /\ nth_error (thresholds (s 5)) 1 = Some lo
  /\ both 5 = [true; false]
  /\ both 4 = [false; true]
  /\ map asserts (trace (check_thresholds
                           (set_value four_and_a_half
                              (set_thresholds [hi; lo] guarded_channel)))) = [false; false]
  /\ asserts (set_property Threshold_Warning "WarningAlarmHigh" (Boolean true))
     && asserts (set_property Threshold_Warning "WarningAlarmLow" (Boolean false))
     = false.
Proof.
  cbv zeta. split; [reflexivity|]. split; [reflexivity|].
  split; [computed|]. split; [computed|]. split; [computed|].
  apply (high_and_low_exclude_each_other
           (set_value (IEEE.double_of_Z 5)
              (set_thresholds [mkThreshold WARNING HIGH four_and_a_half;
                               mkThreshold WARNING LOW four_and_a_half] guarded_channel))
           0 1 (mkThreshold WARNING HIGH four_and_a_half)
           (mkThreshold WARNING LOW four_and_a_half)
           (set_property Threshold_Warning "WarningAlarmHigh" (Boolean true))
           (set_property Threshold_Warning "WarningAlarmLow" (Boolean false)));
    first [reflexivity | computed].
Defined.

(** ** Reads and waits *)

Lemma intervals_app (t u : list event) : intervals (t ++ u) = intervals t ++ intervals u.
Proof.
  induction t as [|e t IH]; [reflexivity|].
  destruct e; cbn [app intervals]; now rewrite IH.
Qed.

Lemma quiet_evaluation (s : ADCSensor) (v : IEEE.double) :
  filter starts_read (evaluation s v) = []
  /\ filter starts_wait (evaluation s v) = []
  /\ intervals (evaluation s v) = [].
Proof.
  unfold evaluation. induction (thresholds s) as [|t ths (R & W & I)]; [now repeat split|].
  cbn [map]. unfold alarm_event at 1 3 5.
  destruct (interface_of s (thresholds.level t)); cbn [filter starts_read starts_wait intervals];
    now repeat split.
Qed.

Lemma quiet_forced (s : ADCSensor) :
  filter starts_read (forced s) = []
  /\ filter starts_wait (forced s) = []
  /\ intervals (forced s) = [].
Proof.
  unfold forced, publication. destruct (warns s); [|now repeat split].
  cbn [filter starts_read starts_wait intervals]. apply quiet_evaluation.
Qed.

Lemma handler_flight (stof : string -> stof_result) (err : error_code) (fd : Z)
    (s : ADCSensor) :
  let h := handle_response stof err fd s in
  filter starts_read (trace h) = []
  /\ pending_read (after h) = pending_read s
  /\ ((filter starts_wait (trace h) = []
       /\ intervals (trace h) = []
       /\ pending_wait (after h) = pending_wait s)
      \/ (filter starts_wait (trace h) = [async_wait]
          /\ intervals (trace h) = [500]
          /\ pending_wait (after h) = true
          /\ res h = Normal tt)).
Proof.
  assert (R : forall u t,
             filter starts_read t = [] -> filter starts_wait t = [] -> intervals t = [] ->
             pending_read u = pending_read s -> pending_wait u = pending_wait s ->
             filter starts_read (t ++ reschedule fd s) = []
             /\ pending_read (rescheduled fd u) = pending_read s
             /\ ((filter starts_wait (t ++ reschedule fd s) = []
                  /\ intervals (t ++ reschedule fd s) = []
                  /\ pending_wait (rescheduled fd u) = pending_wait s)
                 \/ (filter starts_wait (t ++ reschedule fd s) = [async_wait]
                     /\ intervals (t ++ reschedule fd s) = [500]
                     /\ pending_wait (rescheduled fd u) = true
                     /\ Normal tt = Normal tt))).
  { intros u t Hr Hw Hi Pr Pw. rewrite !filter_app, intervals_app, Hr, Hw, Hi.
    unfold reschedule, rescheduled.
    destruct (fd <=? 0); cbn [filter starts_read starts_wait intervals app];
      (split; [reflexivity|]); (split; [exact Pr|]); [left|right]; now repeat split. }
  assert (W : forall u, pending_read (warned u) = pending_read u
                        /\ pending_wait (warned u) = pending_wait u).
  { intro u. split; apply warned_fields. }
  cbv zeta. destruct (verdict_of stof err s) as [|x| | |] eqn:V.
  - rewrite (handle_response_cancelled _ _ _ _ V). cbn. split; [|split; [|left]]; auto.
  - rewrite (handle_response_sample _ _ _ _ _ V). cbn [res after trace].
    destruct (IEEE.ne (sample_value x s) (value s)); apply R; try reflexivity;
      unfold publication; cbn [filter starts_read starts_wait intervals];
      apply quiet_evaluation.
  - destruct (Z.eq_dec (err_count s) INT_MAX) as [L|L].
    + rewrite (handle_response_read_overflow _ _ _ _ V L). cbn.
      split; [|split; [|left]]; auto.
    + rewrite (handle_response_read_failure _ _ _ _ V L). cbn [res after trace].
      change (cerr ?m :: ?t ++ ?r) with ((cerr m :: t) ++ r).
      destruct (W (counted s)) as [Wr Ww].
      apply R; cbn [filter starts_read starts_wait intervals];
        try apply quiet_forced; [now rewrite Wr|now rewrite Ww].
  - destruct (Z.eq_dec (err_count s) INT_MAX) as [L|L].
    + rewrite (handle_response_parse_overflow _ _ _ _ V L). cbn.
      split; [|split; [|left]]; auto.
    + rewrite (handle_response_parse_failure _ _ _ _ V L). cbn [res after trace].
      destruct (W (counted (consumed s))) as [Wr Ww].
      apply R; try apply quiet_forced; [now rewrite Wr|now rewrite Ww].
  - rewrite (handle_response_range_failure _ _ _ _ V). cbn.
    split; [|split; [|left]]; auto.
Qed.

(** X10. The handler of a completed read never starts the next read itself
    and arms the timer at most once, always for 500 ms: whatever the read
    delivered, its calls hold no [async_read_until], at most one
    [async_wait], and no interval other than 500. *)
Theorem handler_starts_no_read (stof : string -> stof_result) (err : error_code)
    (fd : Z) (s : ADCSensor) :
  let h := handle_response stof err fd s in
  reads_started (trace h) = 0%nat
  /\ (waits_started (trace h) <= 1)%nat
  /\ intervals (trace h) = repeat SENSOR_POLL_MS (waits_started (trace h))
  /\ pending_read (after h) = pending_read s.
Proof.
  cbv zeta. destruct (handler_flight stof err fd s) as (R & P & [(W & I & _)|(W & I & _)]);
    cbv zeta in *; unfold reads_started, waits_started; rewrite R, W, I;
    repeat split; auto.
Qed.

Lemma cycle_flight (stof : string -> stof_result) (c : completion) (s : ADCSensor) :
  pending_wait s = false ->
  let r := cycle stof c s in
  pending_wait (after r) = false
  /\ reads_started (trace r) = waits_started (trace r)
  /\ intervals (trace r) = repeat SENSOR_POLL_MS (waits_started (trace r)).
Proof.
  intros Pw. cbv zeta. destruct (pending_read s) eqn:Pr.
  - rewrite (cycle_reading _ _ _ Pr).
    destruct (handler_flight stof (ec c) (reopened c) (delivered c s))
      as (R & _ & [(W & I & Q)|(W & I & Q & N)]); cbv zeta in *;
      unfold cycle_of, reads_started, waits_started.
    + change (pending_wait (delivered c s)) with (pending_wait s) in Q.
      rewrite Pw in Q. rewrite Q.
      destruct (res (handle_response stof (ec c) (reopened c) (delivered c s)));
        cbn [res after trace]; rewrite ?Q, R, W, I; now repeat split.
    + rewrite N, Q. cbn [res after trace pending_wait set_pending_read set_pending_wait].
      rewrite !filter_app, intervals_app, R, W, I. now repeat split.
  - rewrite (cycle_idle _ _ _ Pr). now repeat split.
Qed.

(** X11. Reads and waits alternate: from a sensor with no wait outstanding
    (as the constructor leaves it), any cycles start exactly as many reads as
    they armed waits, every wait is armed for 500 ms, and no wait is
    outstanding after them; a read is started by the expiry of the timer and
    by nothing else. *)
Theorem reads_follow_waits (stof : string -> stof_result) (cs : list completion)
    (s : ADCSensor) :
  pending_wait s = false ->
  let r := poll stof cs s in
  pending_wait (after r) = false
  /\ reads_started (trace r) = waits_started (trace r)
  /\ intervals (trace r) = repeat SENSOR_POLL_MS (waits_started (trace r)).
Proof.
  cbv zeta. revert s. induction cs as [|c cs IH]; intros s P; [now repeat split|].
  destruct (cycle_flight stof c s P) as (P' & R & I). cbv zeta in *.
  cbn [poll]. unfold bind.
  destruct (res (cycle stof c s)); cbn [res after trace]; try now repeat split.
  destruct (IH _ P') as (P'' & R'' & I'').
  unfold reads_started, waits_started in *.
  rewrite !filter_app, intervals_app, !length_app, repeat_app, R, R'', I, I''.
  now repeat split.
Qed.

(** A new channel over two parsed lines, a failed read and a reopen that
    fails: three waits, three reads, and the channel is idle. *)
Lemma reads_follow_waits_witness :
  let cs := [mkCompletion (newline "5000") no_error 6;
             mkCompletion (newline "4000") no_error 6;
             mkCompletion EmptyString eof 6;
             mkCompletion (newline "4000") no_error (-1);
             mkCompletion (newline "3000") no_error 6] in
  let r := poll Strtof.stof cs (channel 1) in
  pending_wait (channel 1) = false
  /\ pending_wait (after r) = false
  /\ reads_started (trace r) = waits_started (trace r)
  /\ intervals (trace r) = repeat SENSOR_POLL_MS (waits_started (trace r))
  /\ waits_started (trace r) = 3%nat
  /\ pending_read (after r) = false.
Proof.
  cbv zeta.
  assert (P : pending_wait (channel 1) = false) by computed.
  split; [exact P|].
  destruct (reads_follow_waits Strtof.stof
              [mkCompletion (newline "5000") no_error 6;
               mkCompletion (newline "4000") no_error 6;
               mkCompletion EmptyString eof 6;
               mkCompletion (newline "4000") no_error (-1);
               mkCompletion (newline "3000") no_error 6] (channel 1) P)
    as (A & B & C).
  split; [exact A|]. split; [exact B|]. split; [exact C|]. split; computed.
Defined.

(** ** Registration *)

Lemma register_thresholds_trace (ths : list Threshold) (s : ADCSensor) :
  register_thresholds ths s = mkRun (Normal tt) s (flat_map (registration s) ths).
Proof.
  induction ths as [|t ths IH]; [reflexivity|].
  cbn [register_thresholds flat_map]. rewrite !bind_gets.
  rewrite (bind_normal _ _ s s tt (registration s t)).
  - rewrite IH. reflexivity.
  - unfold registration, interface_of.
    destruct t as [[|] [|] v]; cbn [thresholds.level thresholds.direction
      thresholds.value Level_eqb Direction_eqb trip_property alarm_identity];
      match goal with |- context [match ?i with Some _ => _ | None => _ end] =>
        destruct i end; reflexivity.
Qed.

Lemma set_initial_properties_trace (initialized : dbus_interface -> bool) (s : ADCSensor) :
  set_initial_properties initialized s =
  mkRun (Normal tt) s
    ([register_property Sensor_Value "MaxValue" (Double (max_value s));
      register_property Sensor_Value "MinValue" (Double (min_value s));
      register_property Sensor_Value "Value" (Double (value s))]
     ++ flat_map (registration s) (thresholds s)
     ++ initializations initialized s).
Proof.
  assert (I : forall i u,
             (emit (initialize i) ;;
              if initialized i then ret tt else emit (cerr (error_initializing i))) u
             = mkRun (Normal tt) u (initialization initialized i)).
  { intros i u. rewrite bind_emit. unfold initialization.
    now destruct (initialized i). }
  unfold set_initial_properties. rewrite !bind_gets, !bind_emit, bind_gets.
  rewrite (bind_normal _ _ _ _ _ _ (register_thresholds_trace (thresholds s) s)).
  rewrite (bind_normal _ _ _ _ _ _ (I Sensor_Value s)), bind_gets.
  unfold initializations.
  destruct (threshold_interface_warning s) as [w|];
    [rewrite (bind_normal _ _ _ _ _ _ (I w s))|rewrite bind_ret];
    rewrite bind_gets;
    (destruct (threshold_interface_critical s) as [c|]; [rewrite (I c s)|]);
    unfold prefix, ret; cbn [res after trace app]; rewrite ?app_nil_r; reflexivity.
Qed.

(** The calls of the constructor, with the members of [constructor_run]. *)
Lemma constructor_trace (Hw Hc : list Threshold -> bool) (device sensor_name : string)
    (ths : list Threshold) (scale : IEEE.double) (cfg : string) (fd : Z)
    (initialized : dbus_interface -> bool) :
  let born := constructor Hw Hc device sensor_name ths scale cfg fd initialized in
  let name := replace_spaces sensor_name in
  let members := set_pending_read false (after born) in
  trace born =
  [add_interface Sensor_Value (object_path name); open device]
  ++ (if Hw ths then [add_interface Threshold_Warning (object_path name)] else [])
  ++ (if Hc ths then [add_interface Threshold_Critical (object_path name)] else [])
  ++ trace (set_initial_properties initialized members)
  ++ [async_read_until].
Proof.
  cbv zeta.
  destruct (constructor_run Hw Hc device sensor_name ths scale cfg fd initialized)
    as [_ E]. cbv zeta in E. rewrite E. cbn [set_pending_read path configuration name
    thresholds scale_factor threshold_interface_warning threshold_interface_critical
    input_dev pending_wait read_buf value err_count max_value min_value].
  unfold constructor. set (members := mkADCSensor _ _ _ _ _ _ _ _ _ _ _ _ _ _ _).
  rewrite !bind_emit.
  destruct (Hw ths), (Hc ths); repeat (rewrite bind_emit || rewrite bind_ret);
    rewrite (bind_normal _ _ _ _ _ _ (set_initial_properties_trace initialized members));
    rewrite set_initial_properties_trace; unfold prefix; cbn [res after trace app];
    reflexivity.
Qed.

Lemma set_initial_properties_events (initialized : dbus_interface -> bool)
    (s : ADCSensor) (e : event) :
  In e (trace (set_initial_properties initialized s)) ->
  (exists p d, e = register_property Sensor_Value p (Double d))
  \/ (exists t i,
        In t (thresholds s)
        /\ interface_of s (thresholds.level t) = Some i
        /\ (e = register_property i
                  (trip_property (thresholds.level t) (thresholds.direction t))
                  (Double (thresholds.value t))
            \/ e = register_property i
                     (alarm_identity (thresholds.level t) (thresholds.direction t))
                     (Boolean false)))
  \/ e = cout trying_to_set_uninitialized_interface
  \/ (exists i, e = initialize i \/ e = cerr (error_initializing i)).
Proof.
  rewrite set_initial_properties_trace. cbn [trace]. rewrite !in_app_iff.
  assert (I : forall i, In e (initialization initialized i) ->
                exists j, e = initialize j \/ e = cerr (error_initializing j)).
  { intros i H. unfold initialization in H. destruct H as [<-|H]; [now exists i; left|].
    destruct (initialized i); [destruct H|]. destruct H as [<-|[]]. now exists i; right. }
  intros [H|[H|H]].
  - left. destruct H as [<-|[<-|[<-|[]]]]; eauto.
  - apply in_flat_map in H as (t & T & H). unfold registration in H.
    destruct (interface_of s (thresholds.level t)) as [i|] eqn:E.
    + right. left. exists t, i. destruct H as [<-|[<-|[]]]; auto.
    + destruct H as [<-|[]]. auto.
  - right. right. right. unfold initializations in H. rewrite !in_app_iff in H.
    destruct H as [H|[H|H]]; [now apply (I Sensor_Value)| |].
    + destruct (threshold_interface_warning s) as [i|]; [now apply (I i)|destruct H].
    + destruct (threshold_interface_critical s) as [i|]; [now apply (I i)|destruct H].
Qed.

(** X12. A constructor whose [open] succeeded publishes nothing and asserts
    nothing: it makes no [set_property] call, every alarm it registers starts
    at [false], the value it registers is the not-a-number sentinel, and it
    ends by starting the first read on the descriptor [open] returned, with no
    wait armed and the error count at 0.  (When [open] fails, the initialiser
    of [input_dev] throws before the body: that construction is not covered.) *)
Theorem constructor_publishes_nothing (Hw Hc : list Threshold -> bool)
    (device sensor_name : string) (ths : list Threshold) (scale : IEEE.double)
    (cfg : string) (fd : Z) (initialized : dbus_interface -> bool) :
  0 <= fd ->
  let born := constructor Hw Hc device sensor_name ths scale cfg fd initialized in
  res born = Normal tt
  /\ input_dev (after born) = Some fd
  /\ (forall i p v, ~ In (set_property i p v) (trace born))
  /\ (forall i p b, In (register_property i p (Boolean b)) (trace born) -> b = false)
  /\ In (register_property Sensor_Value "Value" (Double IEEE.quiet_NaN)) (trace born)
  /\ reads_started (trace born) = 1%nat
  /\ waits_started (trace born) = 0%nat
  /\ last (trace born) close = async_read_until
  /\ pending_read (after born) = true
  /\ err_count (after born) = 0.
Proof.
  intros _. cbv zeta.
  pose proof (constructor_trace Hw Hc device sensor_name ths scale cfg fd initialized)
    as T. cbv zeta in T.
  destruct (constructor_run Hw Hc device sensor_name ths scale cfg fd initialized)
    as [N E]. cbv zeta in E, N.
  set (born := constructor Hw Hc device sensor_name ths scale cfg fd initialized) in *.
  set (members := set_pending_read false (after born)) in *.
  split; [exact N|]. split; [rewrite E; reflexivity|].
  assert (C : forall e, In e (trace born) ->
                e = add_interface Sensor_Value (object_path (replace_spaces sensor_name))
                \/ e = open device
                \/ e = add_interface Threshold_Warning
                         (object_path (replace_spaces sensor_name))
                \/ e = add_interface Threshold_Critical
                         (object_path (replace_spaces sensor_name))
                \/ In e (trace (set_initial_properties initialized members))
                \/ e = async_read_until).
  { intros e H. rewrite T in H. rewrite !in_app_iff in H.
    destruct H as [H|[H|[H|[H|H]]]].
    - destruct H as [<-|[<-|[]]]; auto.
    - destruct (Hw ths); [destruct H as [<-|[]]; auto|destruct H].
    - destruct (Hc ths); [destruct H as [<-|[]]; auto|destruct H].
    - do 4 right. left. exact H.
    - destruct H as [<-|[]]. do 5 right. reflexivity. }
  split; [|split; [|split; [|split; [|split; [|split]]]]].
  - intros i p v H. apply C in H.
    destruct H as [H|[H|[H|[H|[H|H]]]]]; try discriminate.
    apply set_initial_properties_events in H.
    destruct H as [(? & ? & H)|[(? & ? & _ & _ & [H|H])|[H|(? & [H|H])]]];
      discriminate.
  - intros i p b H. apply C in H.
    destruct H as [H|[H|[H|[H|[H|H]]]]]; try discriminate.
    apply set_initial_properties_events in H.
    destruct H as [(? & ? & H)|[(? & ? & _ & _ & [H|H])|[H|(? & [H|H])]]];
      try discriminate. now injection H as _ _ <-.
  - rewrite T, !in_app_iff. right. right. right. left.
    rewrite set_initial_properties_trace. cbn [trace]. apply in_or_app. left.
    right. right. left. subst members. rewrite E. reflexivity.
  - rewrite T. unfold reads_started. rewrite !filter_app, !length_app.
    rewrite set_initial_properties_trace. cbn [trace]. rewrite !filter_app, !length_app.
    assert (Z1 : filter starts_read (flat_map (registration members) (thresholds members))
                 = []).
    { induction (thresholds members) as [|t l IH]; [reflexivity|].
      cbn [flat_map]. rewrite filter_app, IH, app_nil_r. unfold registration.
      now destruct (interface_of members (thresholds.level t)). }
    assert (Z2 : filter starts_read (initializations initialized members) = []).
    { unfold initializations, initialization. rewrite !filter_app.
      destruct (threshold_interface_warning members),
        (threshold_interface_critical members);
        repeat match goal with |- context [initialized ?i] => destruct (initialized i) end;
        reflexivity. }
    rewrite Z1, Z2. destruct (Hw ths), (Hc ths); reflexivity.
  - rewrite T. unfold waits_started. rewrite !filter_app, !length_app.
    rewrite set_initial_properties_trace. cbn [trace]. rewrite !filter_app, !length_app.
    assert (Z1 : filter starts_wait (flat_map (registration members) (thresholds members))
                 = []).
    { induction (thresholds members) as [|t l IH]; [reflexivity|].
      cbn [flat_map]. rewrite filter_app, IH, app_nil_r. unfold registration.
      now destruct (interface_of members (thresholds.level t)). }
    assert (Z2 : filter starts_wait (initializations initialized members) = []).
    { unfold initializations, initialization. rewrite !filter_app.
      destruct (threshold_interface_warning members),
        (threshold_interface_critical members);
        repeat match goal with |- context [initialized ?i] => destruct (initialized i) end;
        reflexivity. }
    rewrite Z1, Z2. destruct (Hw ths), (Hc ths); reflexivity.
  - rewrite T, !app_assoc. apply last_last.
  - rewrite E. split; reflexivity.
Qed.

(** The channel with a Warning-Low and a Critical-High threshold, on
    descriptor 5: four alarms and trip values are registered, the two alarms
    with [false], and nothing is set. *)
Lemma constructor_publishes_nothing_witness :
  let born :=
    constructor (has_level WARNING) (has_level CRITICAL)
      "/sys/bus/iio/devices/iio:device0/in_voltage1_raw" "ADC 1"
      [mkThreshold WARNING LOW (IEEE.double_of_Z 1);
       mkThreshold CRITICAL HIGH four_and_a_half]
      (IEEE.double_of_Z 1) "adc1" 5 (fun _ => true) in
  0 <= 5
  /\ res born = Normal tt
  /\ input_dev (after born) = Some 5
  /\ bus (trace born) = []
  /\ filter (fun e => match e with register_property _ _ (Boolean _) => true
                               | _ => false end) (trace born)
     = [register_property Threshold_Warning "WarningAlarmLow" (Boolean false);
        register_property Threshold_Critical "CriticalAlarmHigh" (Boolean false)]
  /\ reads_started (trace born) = 1%nat
  /\ pending_read (after born) = true.
Proof.
  cbv zeta.
  assert (H : 0 <= 5) by lia.
  destruct (constructor_publishes_nothing (has_level WARNING) (has_level CRITICAL)
              "/sys/bus/iio/devices/iio:device0/in_voltage1_raw" "ADC 1"
              [mkThreshold WARNING LOW (IEEE.double_of_Z 1);
               mkThreshold CRITICAL HIGH four_and_a_half]
              (IEEE.double_of_Z 1) "adc1" 5 (fun _ => true) H)
    as (N & D & _ & _ & _ & R & _ & _ & P & _).
  split; [exact H|]. split; [exact N|]. split; [exact D|].
  split; [computed|]. split; [computed|]. split; [exact R|exact P].
Defined.

(** X13. Every property the poll loop sets was registered by the
    constructor: a boolean is only ever sent to an alarm that the constructor
    registered, on the same interface, with the initial value [false], and a
    number only to the property Value of the value interface. *)
Theorem set_properties_are_registered (stof : string -> stof_result)
    (Hw Hc : list Threshold -> bool) (device sensor_name : string)
    (ths : list Threshold) (scale : IEEE.double) (cfg : string) (fd : Z)
    (initialized : dbus_interface -> bool) (cs : list completion)
    (i : dbus_interface) (p : string) (v : variant) :
  let born := constructor Hw Hc device sensor_name ths scale cfg fd initialized in
  In (set_property i p v) (trace (poll stof cs (after born))) ->
  match v with
  | Boolean _ => In (register_property i p (Boolean false)) (trace born)
  | Double _ =>
      i = Sensor_Value /\ p = "Value"%string
      /\ In (register_property i p (Double IEEE.quiet_NaN)) (trace born)
  end.
Proof.
  cbv zeta. intro H.
  pose proof (constructor_trace Hw Hc device sensor_name ths scale cfg fd initialized)
    as T. cbv zeta in T.
  destruct (constructor_run Hw Hc device sensor_name ths scale cfg fd initialized)
    as [_ E]. cbv zeta in E.
  set (born := constructor Hw Hc device sensor_name ths scale cfg fd initialized) in *.
  assert (S : forall e, In e (trace (set_initial_properties initialized
                                       (set_pending_read false (after born)))) ->
                In e (trace born)).
  { intros e I. rewrite T, !in_app_iff. auto. }
  assert (B : In (set_property i p v) (bus (trace (poll stof cs (after born)))))
    by (apply filter_In; split; [exact H|reflexivity]).
  destruct (poll_observed stof cs (after born)) as (_ & Q & _). cbv zeta in Q.
  rewrite Q in B. apply in_flat_map in B as (w & _ & B).
  destruct B as [B|B].
  - injection B as <- <- <-. split; [reflexivity|]. split; [reflexivity|].
    apply S. rewrite set_initial_properties_trace. cbn [trace]. apply in_or_app. left.
    right. right. left. rewrite E. reflexivity.
  - unfold evaluation in B. apply in_map_iff in B as (t & B & I).
    unfold alarm_event in B.
    destruct (interface_of (after born) (thresholds.level t)) as [j|] eqn:J;
      [|discriminate].
    injection B as <- <- <-. apply S. rewrite set_initial_properties_trace. cbn [trace].
    apply in_or_app. right. apply in_or_app. left. apply in_flat_map. exists t.
    split; [exact I|]. unfold registration.
    change (interface_of (set_pending_read false (after born)) (thresholds.level t))
      with (interface_of (after born) (thresholds.level t)).
    rewrite J. right. left. reflexivity.
Qed.

(** A channel with two thresholds over a line above both and a line under
    both: the two alarms it sets were registered. *)
Lemma set_properties_are_registered_witness :
  let born := constructor (has_level WARNING) (has_level CRITICAL)
                "/sys/bus/iio/devices/iio:device0/in_voltage1_raw" "ADC 1"
                [mkThreshold WARNING LOW (IEEE.double_of_Z 1);
                 mkThreshold CRITICAL HIGH four_and_a_half]
                (IEEE.double_of_Z 1) "adc1" 5 (fun _ => true) in
  let cs := [mkCompletion (newline "5000") no_error 6;
             mkCompletion (newline "500") no_error 6] in
  In (set_property Threshold_Warning "WarningAlarmLow" (Boolean true))
     (trace (poll Strtof.stof cs (after born)))
  /\ In (register_property Threshold_Warning "WarningAlarmLow" (Boolean false))
        (trace born).
Proof.
  cbv zeta.
  assert (H : In (set_property Threshold_Warning "WarningAlarmLow" (Boolean true))
                (trace (poll Strtof.stof
                          [mkCompletion (newline "5000") no_error 6;
                           mkCompletion (newline "500") no_error 6]
                          (after (constructor (has_level WARNING) (has_level CRITICAL)
                                    "/sys/bus/iio/devices/iio:device0/in_voltage1_raw"
                                    "ADC 1"
                                    [mkThreshold WARNING LOW (IEEE.double_of_Z 1);
                                     mkThreshold CRITICAL HIGH four_and_a_half]
                                    (IEEE.double_of_Z 1) "adc1" 5 (fun _ => true)))))).
  { vm_compute. do 10 right. left. reflexivity. }
  split; [exact H|].
  exact (set_properties_are_registered Strtof.stof _ _ _ _ _ _ _ _ _ _ _ _
           (Boolean true) H).
Defined.

(** ** The destructor *)

(** X14. The destructor removes the interfaces the constructor added, and
    only those, whatever the poll loop did in between: an interface was added
    by the constructor exactly when the destructor removes it; for a
    threshold interface that was never created the destructor passes the
    null pointer to [remove_interface].  It closes the device first, then
    cancels the timer. *)
Theorem added_interfaces_are_removed (stof : string -> stof_result)
    (Hw Hc : list Threshold -> bool) (device sensor_name : string)
    (ths : list Threshold) (scale : IEEE.double) (cfg : string) (fd : Z)
    (initialized : dbus_interface -> bool) (cs : list completion) :
  let born := constructor Hw Hc device sensor_name ths scale cfg fd initialized in
  let gone := destructor (after (poll stof cs (after born))) in
  trace gone =
  [close; cancel;
   remove_interface (if Hw ths then Some Threshold_Warning else None);
   remove_interface (if Hc ths then Some Threshold_Critical else None);
   remove_interface (Some Sensor_Value)]
  /\ input_dev (after gone) = None
  /\ forall i,
       In (add_interface i (object_path (name (after born)))) (trace born)
       <-> In (remove_interface (Some i)) (trace gone).
Proof.
  cbv zeta.
  pose proof (constructor_trace Hw Hc device sensor_name ths scale cfg fd initialized)
    as T. cbv zeta in T.
  destruct (constructor_run Hw Hc device sensor_name ths scale cfg fd initialized)
    as [_ E]. cbv zeta in E.
  set (born := constructor Hw Hc device sensor_name ths scale cfg fd initialized) in *.
  destruct (poll_observed stof cs (after born)) as ((_ & W & C) & _). cbv zeta in W, C.
  rewrite destructor_run, W, C. cbn [trace after input_dev set_input_dev].
  assert (Ew : threshold_interface_warning (after born)
               = if Hw ths then Some Threshold_Warning else None) by now rewrite E.
  assert (Ec : threshold_interface_critical (after born)
               = if Hc ths then Some Threshold_Critical else None) by now rewrite E.
  assert (En : name (after born) = replace_spaces sensor_name) by now rewrite E.
  rewrite Ew, Ec, En. split; [reflexivity|]. split; [reflexivity|].
  intro i. rewrite T, !in_app_iff. split.
  - intros [H|[H|[H|[H|H]]]].
    + destruct H as [H|[H|[]]]; [|discriminate]. injection H as <-.
      do 4 right. left. reflexivity.
    + destruct (Hw ths); [|destruct H]. destruct H as [H|[]]. injection H as <-.
      do 2 right. left. reflexivity.
    + destruct (Hc ths); [|destruct H]. destruct H as [H|[]]. injection H as <-.
      do 3 right. left. reflexivity.
    + apply set_initial_properties_events in H.
      destruct H as [(? & ? & H)|[(? & ? & _ & _ & [H|H])|[H|(? & [H|H])]]];
        discriminate.
    + destruct H as [H|[]]. discriminate.
  - intros [H|[H|[H|[H|[H|[]]]]]]; try discriminate.
    + destruct (Hw ths); [|discriminate]. injection H as <-. right. left. now left.
    + destruct (Hc ths); [|discriminate]. injection H as <-. right. right. left. now left.
    + injection H as <-. left. now left.
Qed.

(** ** The setter of a trip value *)

Lemma write_trip_nth (i j : nat) (request : IEEE.double) (ths : list Threshold) :
  nth_error (write_trip i request ths) j =
  if Nat.eqb j i
  then option_map (fun t => mkThreshold (thresholds.level t) (thresholds.direction t)
                              request)
         (nth_error ths j)
  else nth_error ths j.
Proof.
  revert i j. induction ths as [|t ths IH]; intros i j.
  - cbn [write_trip]. destruct j, i; cbn; try reflexivity; now destruct (Nat.eqb j i).
  - destruct i, j; cbn [write_trip nth_error Nat.eqb option_map]; try reflexivity.
    apply IH.
Qed.

Lemma write_trip_length (i : nat) (request : IEEE.double) (ths : list Threshold) :
  List.length (write_trip i request ths) = List.length ths.
Proof.
  revert i. induction ths as [|t ths IH]; intro i; [now destruct i|].
  destruct i; cbn [write_trip List.length]; now rewrite ?IH.
Qed.

(** X15. The setter of a trip value accepts every request: it returns 1,
    hands the request back as the old value, persists the threshold with the
    requested trip value, and stores that value in the threshold it was
    registered for and in no other; levels, directions, the number of
    thresholds, the stored value and the error count stay, and the next
    evaluation compares the value with the requested trip value. *)
Theorem setter_writes_one_trip_value (i : nat) (request : IEEE.double)
    (s : ADCSensor) (w : written) :
  threshold_setter i request s = Some w ->
  exists t iface,
    nth_error (thresholds s) i = Some t
    /\ interface_of s (thresholds.level t) = Some iface
    /\ returned w = 1
    /\ oldValue w = request
    /\ persist w
       = mkPersisted (configuration s) "xyz.openbmc_project.Configuration.ADC"
           (mkThreshold (thresholds.level t) (thresholds.direction t) request)
    /\ nth_error (thresholds (sensor w)) i
       = Some (mkThreshold (thresholds.level t) (thresholds.direction t) request)
    /\ (forall j, j <> i ->
          nth_error (thresholds (sensor w)) j = nth_error (thresholds s) j)
    /\ List.length (thresholds (sensor w)) = List.length (thresholds s)
    /\ value (sensor w) = value s
    /\ err_count (sensor w) = err_count s
    /\ nth_error (trace (check_thresholds (sensor w))) i
       = Some (set_property iface
                 (alarm_identity (thresholds.level t) (thresholds.direction t))
                 (Boolean
                    match thresholds.direction t with
                    | HIGH => IEEE.gt (value s) request
                    | LOW => IEEE.lt (value s) request
                    end)).
Proof.
  unfold threshold_setter. destruct (nth_error (thresholds s) i) as [t|] eqn:N;
    [|discriminate].
  destruct (interface_of s (thresholds.level t)) as [iface|] eqn:I; [|discriminate].
  intro H. injection H as <-. exists t, iface.
  cbn [returned oldValue persist sensor thresholds set_thresholds value err_count].
  assert (A : nth_error (write_trip i request (thresholds s)) i
              = Some (mkThreshold (thresholds.level t) (thresholds.direction t) request)).
  { rewrite write_trip_nth, Nat.eqb_refl, N. reflexivity. }
  repeat split; auto.
  - intros j J. rewrite write_trip_nth. apply Nat.eqb_neq in J. now rewrite J.
  - apply write_trip_length.
  - rewrite check_thresholds_run. cbn [trace]. unfold evaluation.
    cbn [thresholds set_thresholds value]. rewrite nth_error_map, A. cbn [option_map].
    unfold alarm_event, tripped. cbn [thresholds.level thresholds.direction
      thresholds.value]. change (interface_of (set_thresholds _ s)) with (interface_of s).
    now rewrite I.
Qed.

(** The Critical-High threshold of a channel that holds 5 is moved from 4.5
    to 6: the next evaluation clears the alarm. *)
Lemma setter_writes_one_trip_value_witness :
  let s := set_value (IEEE.double_of_Z 5) guarded_channel in
  exists w,
    threshold_setter 1 (IEEE.double_of_Z 6) s = Some w
    /\ returned w = 1
    /\ thresholds (sensor w)
       = [mkThreshold WARNING LOW (IEEE.double_of_Z 1);
          mkThreshold CRITICAL HIGH (IEEE.double_of_Z 6)]
    /\ nth_error (trace (check_thresholds s)) 1
       = Some (set_property Threshold_Critical "CriticalAlarmHigh" (Boolean true))
    /\ nth_error (trace (check_thresholds (sensor w))) 1
       = Some (set_property Threshold_Critical "CriticalAlarmHigh" (Boolean false)).
Proof.
  cbv zeta.
  destruct (threshold_setter 1 (IEEE.double_of_Z 6)
              (set_value (IEEE.double_of_Z 5) guarded_channel)) as [w|] eqn:E;
    [|vm_compute in E; discriminate E].
  exists w. split; [reflexivity|].
  destruct (setter_writes_one_trip_value _ _ _ _ E)
    as (t & iface & N & I & R & _ & _ & _ & _ & _ & _ & _ & C).
  split; [exact R|].
  vm_compute in E. injection E as <-. vm_compute in N. injection N as <-.
  vm_compute in I. injection I as <-.
  split; [computed|]. split; [computed|]. rewrite C. computed.
Defined.



(** ** The alarms *)

(** X17. The property an alarm is sent to tells its level and direction: two
    calls of [assert_thresholds] that set a property of the same name are for
    the same level and the same direction, so thresholds of different level
    or direction never drive the same alarm. *)
Theorem alarms_are_distinct (s : ADCSensor) (l l' : Level) (d d' : Direction)
    (b b' : bool) (i i' : dbus_interface) (p : string) :
  trace (assert_thresholds l d b s) = [set_property i p (Boolean b)] ->
  trace (assert_thresholds l' d' b' s) = [set_property i' p (Boolean b')] ->
  l = l' /\ d = d'.
Proof.
  pose proof (assert_thresholds_run s (mkThreshold l d IEEE.quiet_NaN) b) as R.
  pose proof (assert_thresholds_run s (mkThreshold l' d' IEEE.quiet_NaN) b') as R'.
  cbn [thresholds.level thresholds.direction] in R, R'. rewrite R, R'. cbn [trace].
  destruct (interface_of s l), (interface_of s l'); try discriminate.
  intros H H'. injection H as _ <-. injection H' as _ H'.
  destruct l, d, l', d'; try discriminate H'; now split.
Qed.

(** On a channel with both threshold interfaces, the Warning-Low and the
    Critical-High alarm differ; two calls for Warning-Low agree. *)
Lemma alarms_are_distinct_witness :
  trace (assert_thresholds WARNING LOW true guarded_channel)
  = [set_property Threshold_Warning "WarningAlarmLow" (Boolean true)]
  /\ trace (assert_thresholds WARNING LOW false guarded_channel)
     = [set_property Threshold_Warning "WarningAlarmLow" (Boolean false)]
  /\ WARNING = WARNING /\ LOW = LOW.
Proof.
  assert (A : trace (assert_thresholds WARNING LOW true guarded_channel)
              = [set_property Threshold_Warning "WarningAlarmLow" (Boolean true)])
    by computed.
  assert (B : trace (assert_thresholds WARNING LOW false guarded_channel)
              = [set_property Threshold_Warning "WarningAlarmLow" (Boolean false)])
    by computed.
  split; [exact A|]. split; [exact B|].
  exact (alarms_are_distinct _ _ _ _ _ _ _ _ _ _ A B).
Defined.
